(** * smoldtb: a shallow embedding of the device-tree parser and serialiser

    The embedding follows [smoldtb.c] function by function.

    Conventions.
    - The host is little-endian with 64-bit [size_t], [uintptr_t] and
      [uintmax_t] (the branch of [be32] that swaps bytes is the one compiled),
      and [SMOLDTB_STATIC_BUFFER_SIZE] is not defined.
    - [dtb_init] receives a bare address, so memory is a total map from
      addresses to bytes; the blob is whatever lies at that address.
    - Pointers into the node and property arenas are slot indices; a nullable
      pointer is an [option].  String arguments of the entry points are taken
      to be non-null.
    - Wrap-around is written out where a value of the caller can reach it:
      in [be32], in the assembly of cells, in the strides of the decoders
      and in the byte bound of [dtb_read_prop_string].  Cursors, addresses
      and sums of sizes are bounded by the size of the blob and are kept as
      integers.
    - Loops the source bounds by a counter recurse on that counter.  Loops
      and recursions the source does not bound (string scans, linked-list
      walks, the recursive descent) take fuel and answer [OutOfFuel] when it
      is exhausted.
    - An operation whose behaviour C leaves undefined (division by zero, a
      shift by the width of the type or more, reading an uninitialised
      variable, a store past the end of an array) answers [Undefined]. *)

From Stdlib Require Import ZArith List Lia Bool String Ascii Arith.
Import ListNotations.
Local Open Scope Z_scope.

(** ** Outcomes of a run *)

Inductive result (A : Type) : Type :=
| Ok (a : A)
| OutOfFuel
| Undefined.
Arguments Ok {A} a.
Arguments OutOfFuel {A}.
Arguments Undefined {A}.

Definition bind {A B : Type} (r : result A) (k : A -> result B) : result B :=
  match r with
  | Ok a => k a
  | OutOfFuel => OutOfFuel
  | Undefined => Undefined
  end.

Declare Scope result_scope.
Delimit Scope result_scope with result.
Notation "x <- e ;; k" := (bind e (fun x => k))
  (at level 61, e at next level, right associativity) : result_scope.
Notation "' p <- e ;; k" := (bind e (fun x => match x with p => k end))
  (at level 61, p pattern, e at next level, right associativity) : result_scope.
Local Open Scope result_scope.

(** ** Machine integers *)

Definition wrap32 (x : Z) : Z := x mod 2 ^ 32.
Definition wrap64 (x : Z) : Z := x mod 2 ^ 64.

Definition FDT_MAGIC : Z := 0xD00DFEED.
Definition FDT_BEGIN_NODE : Z := 1.
Definition FDT_END_NODE : Z := 2.
Definition FDT_PROP : Z := 3.
Definition FDT_NOP : Z := 4.
Definition FDT_VERSION : Z := 17.
Definition FDT_CELL_SIZE : Z := 4.
Definition SMOLDTB_FOREACH_CONTINUE : Z := 0.
Definition SMOLDTB_FOREACH_ABORT : Z := 1.

Definition sizeof_fdt_header : Z := 40.

(** [be32]: the little-endian branch, on a [uint32_t]. *)
Definition be32 (input : Z) : Z :=
  let temp := 0 in
  let temp := Z.lor temp (wrap32 (Z.shiftl (Z.land input 0xFF) 24)) in
  let temp := Z.lor temp (wrap32 (Z.shiftl (Z.land input 0xFF00) 8)) in
  let temp := Z.lor temp (Z.shiftr (Z.land input 0xFF0000) 8) in
  let temp := Z.lor temp (Z.shiftr (Z.land input 0xFF000000) 24) in
  temp.

Definition dtb_align_up (input alignment : Z) : Z :=
  wrap64 (wrap64 (input + alignment - 1) / alignment * alignment).

(** ** Memory *)

Definition memory : Type := Z -> Z.

Definition load8 (m : memory) (a : Z) : Z := m a mod 256.

Definition store8 (m : memory) (a v : Z) : memory :=
  fun a' => if a' =? a then v mod 256 else m a'.

(** A [uint32_t] read or written through a pointer, in host byte order. *)
Definition load32 (m : memory) (a : Z) : Z :=
  load8 m a + load8 m (a + 1) * 2 ^ 8 + load8 m (a + 2) * 2 ^ 16
  + load8 m (a + 3) * 2 ^ 24.

Definition store32 (m : memory) (a v : Z) : memory :=
  store8 (store8 (store8 (store8 m a v) (a + 1) (v / 2 ^ 8))
                 (a + 2) (v / 2 ^ 16)) (a + 3) (v / 2 ^ 24).

Definition store64 (m : memory) (a v : Z) : memory :=
  store32 (store32 m a v) (a + 4) (v / 2 ^ 32).

(** ** C strings

    A [const char*] argument may point into the blob or at a string of the
    caller; either way the code only indexes it.  [cstr] is that view: the
    character at each index. *)

Definition cstr : Type := Z -> Z.

Definition at_addr (m : memory) (p : Z) : cstr := fun i => load8 m (p + i).

Definition bytes_of (s : string) : list Z :=
  map (fun c => Z.of_nat (nat_of_ascii c)) (list_ascii_of_string s).

(** A string literal: its characters, then the terminator. *)
Definition lit (s : string) : cstr :=
  fun i => if i <? 0 then 0 else nth (Z.to_nat i) (bytes_of s) 0.

Fixpoint string_len_from (fuel : nat) (str : cstr) (count : Z) : result Z :=
  match fuel with
  | O => OutOfFuel
  | S f => if str count =? 0 then Ok count
           else string_len_from f str (count + 1)
  end.

Definition string_len (fuel : nat) (str : option cstr) : result Z :=
  match str with
  | None => Ok 0
  | Some s => string_len_from fuel s 0
  end.

(** [memcpy] reads each source byte from the memory as it stands, so an
    overlapping copy behaves as the byte loop does. *)
Fixpoint memcpy_from (n : nat) (m : memory) (dest src i : Z) : memory :=
  match n with
  | O => m
  | S n' => memcpy_from n' (store8 m (dest + i) (load8 m (src + i)))
                        dest src (i + 1)
  end.

Definition memcpy (m : memory) (dest src count : Z) : memory :=
  memcpy_from (Z.to_nat count) m dest src 0.

Fixpoint strings_eq_from (n : nat) (a b : cstr) (i : Z) : bool :=
  match n with
  | O => true
  | S n' =>
      if (a i =? 0) && (b i =? 0) then true
      else if negb (a i =? b i) then false
      else strings_eq_from n' a b (i + 1)
  end.

Definition strings_eq (a b : cstr) (len : Z) : bool :=
  strings_eq_from (Z.to_nat len) a b 0.

(** ** Parser records and state *)

Record dtb_node : Type := mk_node {
  parent : option nat;
  sibling : option nat;
  child : option nat;
  props : option nat;
  name : option Z
}.

Record dtb_prop : Type := mk_prop {
  prop_name : Z;
  first_cell : Z;
  prop_length : Z;
  next : option nat
}.

(** The host operations; each flag tells whether the function pointer is
    set.  [malloc] is taken to succeed whenever it is present. *)
Record dtb_ops : Type := mk_ops {
  malloc : bool;
  free : bool;
  on_error : bool
}.

Record dtb_config : Type := mk_config {
  config_ver : Z;
  writable : bool
}.

(** [struct dtb_state].  The three arenas are total maps from slot index to
    record; [node_buff_null] tells whether [node_buff] is the null pointer.
    [errors] is not a field of the C struct: it collects the messages handed
    to [ops.on_error], latest first. *)
Record dtb_state : Type := mk_state {
  cells : Z;
  strings : Z;
  cell_count : Z;
  root : option nat;
  handle_lookup : Z -> option nat;
  node_buff : nat -> dtb_node;
  node_buff_null : bool;
  node_alloc_head : nat;
  node_alloc_max : nat;
  prop_buff : nat -> dtb_prop;
  prop_alloc_head : nat;
  prop_alloc_max : nat;
  ops : dtb_ops;
  errors : list string
}.

Definition zero_node : dtb_node := mk_node None None None None None.
Definition zero_prop : dtb_prop := mk_prop 0 0 0 None.

(** The zero-initialised global. *)
Definition state0 : dtb_state :=
  mk_state 0 0 0 None (fun _ => None) (fun _ => zero_node) true 0 0
           (fun _ => zero_prop) 0 0 (mk_ops false false false) [].

Definition upd {A : Type} (f : nat -> A) (i : nat) (v : A) : nat -> A :=
  fun j => if Nat.eqb j i then v else f j.

Definition set_node (st : dtb_state) (i : nat) (n : dtb_node) : dtb_state :=
  mk_state (cells st) (strings st) (cell_count st) (root st)
           (handle_lookup st) (upd (node_buff st) i n) (node_buff_null st)
           (node_alloc_head st) (node_alloc_max st) (prop_buff st)
           (prop_alloc_head st) (prop_alloc_max st) (ops st) (errors st).

Definition set_prop (st : dtb_state) (i : nat) (p : dtb_prop) : dtb_state :=
  mk_state (cells st) (strings st) (cell_count st) (root st)
           (handle_lookup st) (node_buff st) (node_buff_null st)
           (node_alloc_head st) (node_alloc_max st) (upd (prop_buff st) i p)
           (prop_alloc_head st) (prop_alloc_max st) (ops st) (errors st).

Definition set_root (st : dtb_state) (r : option nat) : dtb_state :=
  mk_state (cells st) (strings st) (cell_count st) r
           (handle_lookup st) (node_buff st) (node_buff_null st)
           (node_alloc_head st) (node_alloc_max st) (prop_buff st)
           (prop_alloc_head st) (prop_alloc_max st) (ops st) (errors st).

Definition set_handle (st : dtb_state) (h : Z) (n : option nat) : dtb_state :=
  mk_state (cells st) (strings st) (cell_count st) (root st)
           (fun k => if k =? h then n else handle_lookup st k)
           (node_buff st) (node_buff_null st)
           (node_alloc_head st) (node_alloc_max st) (prop_buff st)
           (prop_alloc_head st) (prop_alloc_max st) (ops st) (errors st).

Definition set_node_alloc_head (st : dtb_state) (h : nat) : dtb_state :=
  mk_state (cells st) (strings st) (cell_count st) (root st)
           (handle_lookup st) (node_buff st) (node_buff_null st)
           h (node_alloc_max st) (prop_buff st)
           (prop_alloc_head st) (prop_alloc_max st) (ops st) (errors st).

Definition set_prop_alloc_head (st : dtb_state) (h : nat) : dtb_state :=
  mk_state (cells st) (strings st) (cell_count st) (root st)
           (handle_lookup st) (node_buff st) (node_buff_null st)
           (node_alloc_head st) (node_alloc_max st) (prop_buff st)
           h (prop_alloc_max st) (ops st) (errors st).

(** A call of [ops.on_error] guarded by the null test; [LOG_ERROR] expands
    to the same. *)
Definition LOG_ERROR (msg : string) (st : dtb_state) : dtb_state :=
  if on_error (ops st) then
    mk_state (cells st) (strings st) (cell_count st) (root st)
             (handle_lookup st) (node_buff st) (node_buff_null st)
             (node_alloc_head st) (node_alloc_max st) (prop_buff st)
             (prop_alloc_head st) (prop_alloc_max st) (ops st)
             (msg :: errors st)
  else st.

(** The cell of the structure block at a cursor, as stored. *)
Definition cell (m : memory) (st : dtb_state) (offset : Z) : Z :=
  load32 m (cells st + 4 * offset).

(** ** Property decoders *)

Fixpoint extract_cells_from (n : nat) (m : memory) (base count i value : Z)
  : result Z :=
  match n with
  | O => Ok value
  | S n' =>
      let shift := wrap64 (wrap64 (count - 1 - i) * 32) in
      if 64 <=? shift then Undefined
      else extract_cells_from n' m base count (i + 1)
             (Z.lor value (wrap64 (Z.shiftl (be32 (load32 m (base + 4 * i)))
                                            shift)))
  end.

Definition extract_cells (m : memory) (base count : Z) : result Z :=
  extract_cells_from (Z.to_nat count) m base count 0 0.

(** A store through an output pointer: the array is as long as the caller
    made it, and a store past its end is undefined. *)
Fixpoint write_at {A : Type} (l : list A) (i : nat) (v : A)
  : result (list A) :=
  match l, i with
  | [], _ => Undefined
  | _ :: t, O => Ok (v :: t)
  | h :: t, S i' => t' <- write_at t i' v ;; Ok (h :: t')
  end.

Fixpoint read_prop_string_from (n : nat) (m : memory) (name index : Z)
  (scan curr_index : Z) : option Z :=
  match n with
  | O => None
  | S n' =>
      if load8 m (name + scan) =? 0 then
        read_prop_string_from n' m name index (scan + 1)
                              (wrap64 (curr_index + 1))
      else if curr_index =? index then Some (name + scan)
      else read_prop_string_from n' m name index (scan + 1) curr_index
  end.

Definition dtb_read_prop_string (m : memory) (st : dtb_state)
  (prop : option nat) (index : Z) : option Z :=
  match prop with
  | None => None
  | Some p =>
      let name := first_cell (prop_buff st p) in
      let bound := wrap64 (prop_length (prop_buff st p) * 4) in
      read_prop_string_from (Z.to_nat bound) m name index 0 0
  end.

Fixpoint read_values_from (n : nat) (m : memory) (first cell_count i : Z)
  (vals : list Z) : result (list Z) :=
  match n with
  | O => Ok vals
  | S n' =>
      let base := first + 4 * (i * cell_count) in
      v <- extract_cells m base cell_count ;;
      vals' <- write_at vals (Z.to_nat i) v ;;
      read_values_from n' m first cell_count (i + 1) vals'
  end.

Definition dtb_read_prop_values (m : memory) (st : dtb_state)
  (prop : option nat) (cell_count : Z) (vals : option (list Z))
  : result (Z * option (list Z)) :=
  match prop with
  | None => Ok (0, vals)
  | Some p =>
      if cell_count =? 0 then Ok (0, vals)
      else
        let fdtprop := first_cell (prop_buff st p) - 8 in
        let stride := wrap64 (cell_count * FDT_CELL_SIZE) in
        if stride =? 0 then Undefined
        else
          let count := be32 (load32 m fdtprop) / stride in
          match vals with
          | None => Ok (count, None)
          | Some out =>
              out' <- read_values_from (Z.to_nat count) m
                        (first_cell (prop_buff st p)) cell_count 0 out ;;
              Ok (count, Some out')
          end
  end.

(** The tuple layouts of [smoldtb.h], as the decoders use them. *)
Record dtb_pair : Type := mk_pair { pair_a : Z; pair_b : Z }.
Record dtb_triplet : Type :=
  mk_triplet { triplet_a : Z; triplet_b : Z; triplet_c : Z }.
Record dtb_quad : Type :=
  mk_quad { quad_a : Z; quad_b : Z; quad_c : Z; quad_d : Z }.

Fixpoint read_pairs_from (n : nat) (m : memory) (first : Z)
  (layout : dtb_pair) (i : Z) (vals : list dtb_pair)
  : result (list dtb_pair) :=
  match n with
  | O => Ok vals
  | S n' =>
      let base := first + 4 * (i * wrap64 (pair_a layout + pair_b layout)) in
      a <- extract_cells m base (pair_a layout) ;;
      b <- extract_cells m (base + 4 * pair_a layout) (pair_b layout) ;;
      vals' <- write_at vals (Z.to_nat i) (mk_pair a b) ;;
      read_pairs_from n' m first layout (i + 1) vals'
  end.

Definition dtb_read_prop_pairs (m : memory) (st : dtb_state)
  (prop : option nat) (layout : dtb_pair) (vals : option (list dtb_pair))
  : result (Z * option (list dtb_pair)) :=
  match prop with
  | None => Ok (0, vals)
  | Some p =>
      if (pair_a layout =? 0) || (pair_b layout =? 0) then Ok (0, vals)
      else
        let fdtprop := first_cell (prop_buff st p) - 8 in
        let stride :=
          wrap64 (wrap64 (pair_a layout + pair_b layout) * FDT_CELL_SIZE) in
        if stride =? 0 then Undefined
        else
          let count := be32 (load32 m fdtprop) / stride in
          match vals with
          | None => Ok (count, None)
          | Some out =>
              out' <- read_pairs_from (Z.to_nat count) m
                        (first_cell (prop_buff st p)) layout 0 out ;;
              Ok (count, Some out')
          end
  end.

Fixpoint read_triplets_from (n : nat) (m : memory) (first : Z)
  (layout : dtb_triplet) (stride i : Z) (vals : list dtb_triplet)
  : result (list dtb_triplet) :=
  match n with
  | O => Ok vals
  | S n' =>
      let base := first + 4 * (i * stride) in
      a <- extract_cells m base (triplet_a layout) ;;
      b <- extract_cells m (base + 4 * triplet_a layout) (triplet_b layout) ;;
      c <- extract_cells m (base + 4 * triplet_a layout + 4 * triplet_b layout)
             (triplet_c layout) ;;
      vals' <- write_at vals (Z.to_nat i) (mk_triplet a b c) ;;
      read_triplets_from n' m first layout stride (i + 1) vals'
  end.

Definition dtb_read_prop_triplets (m : memory) (st : dtb_state)
  (prop : option nat) (layout : dtb_triplet)
  (vals : option (list dtb_triplet))
  : result (Z * option (list dtb_triplet)) :=
  match prop with
  | None => Ok (0, vals)
  | Some p =>
      if (triplet_a layout =? 0) || (triplet_b layout =? 0)
         || (triplet_c layout =? 0) then Ok (0, vals)
      else
        let fdtprop := first_cell (prop_buff st p) - 8 in
        let stride :=
          wrap64 (wrap64 (triplet_a layout + triplet_b layout)
                  + triplet_c layout) in
        let bytes := wrap64 (stride * FDT_CELL_SIZE) in
        if bytes =? 0 then Undefined
        else
          let count := be32 (load32 m fdtprop) / bytes in
          match vals with
          | None => Ok (count, None)
          | Some out =>
              out' <- read_triplets_from (Z.to_nat count) m
                        (first_cell (prop_buff st p)) layout stride 0 out ;;
              Ok (count, Some out')
          end
  end.

Fixpoint read_quads_from (n : nat) (m : memory) (first : Z)
  (layout : dtb_quad) (stride i : Z) (vals : list dtb_quad)
  : result (list dtb_quad) :=
  match n with
  | O => Ok vals
  | S n' =>
      let base := first + 4 * (i * stride) in
      a <- extract_cells m base (quad_a layout) ;;
      b <- extract_cells m (base + 4 * quad_a layout) (quad_b layout) ;;
      c <- extract_cells m (base + 4 * quad_a layout + 4 * quad_b layout)
             (quad_c layout) ;;
      d <- extract_cells m (base + 4 * quad_a layout + 4 * quad_b layout
                            + 4 * quad_c layout) (quad_d layout) ;;
      vals' <- write_at vals (Z.to_nat i) (mk_quad a b c d) ;;
      read_quads_from n' m first layout stride (i + 1) vals'
  end.

Definition dtb_read_prop_quads (m : memory) (st : dtb_state)
  (prop : option nat) (layout : dtb_quad) (vals : option (list dtb_quad))
  : result (Z * option (list dtb_quad)) :=
  match prop with
  | None => Ok (0, vals)
  | Some p =>
      if (quad_a layout =? 0) || (quad_b layout =? 0)
         || (quad_c layout =? 0) || (quad_d layout =? 0) then Ok (0, vals)
      else
        let fdtprop := first_cell (prop_buff st p) - 8 in
        let stride :=
          wrap64 (wrap64 (wrap64 (quad_a layout + quad_b layout)
                          + quad_c layout) + quad_d layout) in
        let bytes := wrap64 (stride * FDT_CELL_SIZE) in
        if bytes =? 0 then Undefined
        else
          let count := be32 (load32 m fdtprop) / bytes in
          match vals with
          | None => Ok (count, None)
          | Some out =>
              out' <- read_quads_from (Z.to_nat count) m
                        (first_cell (prop_buff st p)) layout stride 0 out ;;
              Ok (count, Some out')
          end
  end.

(** ** Arena allocator *)

Definition alloc_node (st : dtb_state) : dtb_state * option nat :=
  if (node_alloc_head st + 1 <? node_alloc_max st)%nat then
    (set_node_alloc_head st (S (node_alloc_head st)),
     Some (node_alloc_head st))
  else (LOG_ERROR "Node allocator ran out of space" st, None).

Definition alloc_prop (st : dtb_state) : dtb_state * option nat :=
  if (prop_alloc_head st + 1 <? prop_alloc_max st)%nat then
    (set_prop_alloc_head st (S (prop_alloc_head st)),
     Some (prop_alloc_head st))
  else (LOG_ERROR "Property allocator ran out of space" st, None).

(** [free_buffers], without [SMOLDTB_STATIC_BUFFER_SIZE]. *)
Definition free_buffers (st : dtb_state) : dtb_state :=
  if negb (free (ops st)) then
    LOG_ERROR "ops.free() is NULL while trying to free buffers." st
  else
    mk_state (cells st) (strings st) (cell_count st) (root st)
             (handle_lookup st) (node_buff st) true
             (node_alloc_head st) 0 (prop_buff st)
             (prop_alloc_head st) 0 (ops st) (errors st).

(** The sizing scan of [alloc_buffers]: every word of the structure block
    is compared with the two tokens. *)
Fixpoint count_tokens (n : nat) (m : memory) (st : dtb_state) (i : Z)
  (nodes props : nat) : nat * nat :=
  match n with
  | O => (nodes, props)
  | S n' =>
      if be32 (cell m st i) =? FDT_BEGIN_NODE then
        count_tokens n' m st (i + 1) (S nodes) props
      else if be32 (cell m st i) =? FDT_PROP then
        count_tokens n' m st (i + 1) nodes (S props)
      else count_tokens n' m st (i + 1) nodes props
  end.

(** [alloc_buffers], without [SMOLDTB_STATIC_BUFFER_SIZE]: one zeroed block
    from [ops.malloc], cut into the three arenas. *)
Definition alloc_buffers (m : memory) (st : dtb_state) : dtb_state :=
  let '(nodes, props) :=
    count_tokens (Z.to_nat (cell_count st)) m st 0 0%nat 0%nat in
  mk_state (cells st) (strings st) (cell_count st) (root st)
           (fun _ => None) (fun _ => zero_node) false
           0 nodes (fun _ => zero_prop)
           0 props (ops st) (errors st).

(** ** Token-stream parser *)

Definition with_parent (n : dtb_node) (v : option nat) : dtb_node :=
  mk_node v (sibling n) (child n) (props n) (name n).
Definition with_sibling (n : dtb_node) (v : option nat) : dtb_node :=
  mk_node (parent n) v (child n) (props n) (name n).
Definition with_child (n : dtb_node) (v : option nat) : dtb_node :=
  mk_node (parent n) (sibling n) v (props n) (name n).
Definition with_props (n : dtb_node) (v : option nat) : dtb_node :=
  mk_node (parent n) (sibling n) (child n) v (name n).
Definition with_name (n : dtb_node) (v : option Z) : dtb_node :=
  mk_node (parent n) (sibling n) (child n) (props n) v.
Definition with_next (p : dtb_prop) (v : option nat) : dtb_prop :=
  mk_prop (prop_name p) (first_cell p) (prop_length p) v.

Definition char (c : ascii) : Z := Z.of_nat (nat_of_ascii c).

(** [check_for_special_prop].  The local [handle] is uninitialised until
    [dtb_read_prop_values] stores into it; it is an array of one element as
    far as that call is concerned. *)
Definition check_for_special_prop (fuel : nat) (m : memory) (st : dtb_state)
  (node prop : nat) : result dtb_state :=
  let pname := at_addr m (prop_name (prop_buff st prop)) in
  let name0 := pname 0 in
  if negb (name0 =? char "#") || negb (name0 =? char "p")
     || negb (name0 =? char "l")
  then Ok st
  else
    name_len <- string_len fuel (Some pname) ;;
    let len_phandle := 7 in
    if (name_len =? len_phandle) && strings_eq pname (lit "phandle") name_len
    then
      '(count, vals) <- dtb_read_prop_values m st (Some prop) 1 (Some [0]) ;;
      if count =? 0 then Undefined
      else
        let handle := nth 0 (match vals with Some l => l | None => [] end) 0 in
        if handle <? Z.of_nat (node_alloc_max st)
        then Ok (set_handle st handle (Some node))
        else Undefined
    else
      let len_lhandle := 13 in
      if (name_len =? len_lhandle)
         && strings_eq pname (lit "linux,phandle") name_len
      then
        '(count, vals) <- dtb_read_prop_values m st (Some prop) 1 (Some [0]) ;;
        if count =? 0 then Undefined
        else
          let handle :=
            nth 0 (match vals with Some l => l | None => [] end) 0 in
          if handle <? Z.of_nat (node_alloc_max st)
          then Ok (set_handle st handle (Some node))
          else Undefined
      else Ok st.

Definition parse_prop (m : memory) (st : dtb_state) (offset : Z)
  : dtb_state * Z * option nat :=
  if negb (be32 (cell m st offset) =? FDT_PROP) then (st, offset, None)
  else
    let offset := offset + 1 in
    match alloc_prop st with
    | (st, None) => (LOG_ERROR "Property allocation failed" st, offset, None)
    | (st, Some prop) =>
        let fdtprop := cells st + 4 * offset in
        let length := be32 (load32 m fdtprop) in
        let name_offset := be32 (load32 m (fdtprop + 4)) in
        let st :=
          set_prop st prop
            (mk_prop (strings st + name_offset)
                     (cells st + 4 * offset + 8)
                     length
                     (next (prop_buff st prop))) in
        (st, offset + (dtb_align_up length 4 / 4 + 2), Some prop)
    end.

Fixpoint parse_node (fuel : nat) (m : memory) (st : dtb_state) (offset : Z)
  {struct fuel} : result (dtb_state * Z * option nat) :=
  match fuel with
  | O => OutOfFuel
  | S f =>
      if negb (be32 (cell m st offset) =? FDT_BEGIN_NODE)
      then Ok (st, offset, None)
      else
        match alloc_node st with
        | (st, None) =>
            Ok (LOG_ERROR "Node allocation failed" st, offset, None)
        | (st, Some node) =>
            let name_ptr := cells st + 4 * offset + 4 in
            let st :=
              set_node st node (with_name (node_buff st node) (Some name_ptr)) in
            name_len <- string_len f (Some (at_addr m name_ptr)) ;;
            let st :=
              if name_len =? 0
              then set_node st node (with_name (node_buff st node) None)
              else st in
            let offset :=
              offset + (dtb_align_up (name_len + 1) FDT_CELL_SIZE
                        / FDT_CELL_SIZE + 1) in
            parse_node_loop f m st offset node
        end
  end

(** The [while] loop of [parse_node], for the node under construction. *)
with parse_node_loop (fuel : nat) (m : memory) (st : dtb_state) (offset : Z)
  (node : nat) {struct fuel} : result (dtb_state * Z * option nat) :=
  match fuel with
  | O => OutOfFuel
  | S f =>
      if offset <? cell_count st then
        let test := be32 (cell m st offset) in
        if test =? FDT_END_NODE then Ok (st, offset + 1, Some node)
        else if test =? FDT_BEGIN_NODE then
          '(st, offset, child_) <- parse_node f m st offset ;;
          match child_ with
          | None => parse_node_loop f m st offset node
          | Some c =>
              let st :=
                set_node st c
                  (with_sibling (node_buff st c)
                                (child (node_buff st node))) in
              let st :=
                set_node st node (with_child (node_buff st node) (Some c)) in
              let st :=
                set_node st c (with_parent (node_buff st c) (Some node)) in
              parse_node_loop f m st offset node
          end
        else if test =? FDT_PROP then
          let '(st, offset, prop_) := parse_prop m st offset in
          match prop_ with
          | None => parse_node_loop f m st offset node
          | Some p =>
              let st :=
                set_prop st p
                  (with_next (prop_buff st p) (props (node_buff st node))) in
              let st :=
                set_node st node (with_props (node_buff st node) (Some p)) in
              st <- check_for_special_prop f m st node p ;;
              parse_node_loop f m st offset node
          end
        else parse_node_loop f m st (offset + 1) node
      else Ok (LOG_ERROR "Node is missing terminating tag." st, offset, None)
  end.

Definition dtb_query_total_size (m : memory) (fdt_start : Z) : Z :=
  be32 (load32 m (fdt_start + 4)).

Definition sanitise_config (config : dtb_config) : dtb_config :=
  if config_ver config <? 1 then mk_config (config_ver config) false
  else config.

(** The [for] loop of [dtb_init_with_config]. *)
Fixpoint init_loop (fuel : nat) (m : memory) (st : dtb_state) (i : Z)
  : result dtb_state :=
  match fuel with
  | O => OutOfFuel
  | S f =>
      if i <? cell_count st then
        if negb (be32 (cell m st i) =? FDT_BEGIN_NODE)
        then init_loop f m st (i + 1)
        else
          '(st, i, sub_root) <- parse_node f m st i ;;
          match sub_root with
          | None => init_loop f m st (i + 1)
          | Some r =>
              let st :=
                set_node st r (with_sibling (node_buff st r) (root st)) in
              let st := set_root st (Some r) in
              init_loop f m st (i + 1)
          end
      else Ok st
  end.

Definition set_ops (st : dtb_state) (o : dtb_ops) : dtb_state :=
  mk_state (cells st) (strings st) (cell_count st) (root st)
           (handle_lookup st) (node_buff st) (node_buff_null st)
           (node_alloc_head st) (node_alloc_max st) (prop_buff st)
           (prop_alloc_head st) (prop_alloc_max st) o (errors st).

Definition set_blob (st : dtb_state) (c : Z) (n : Z) (s : Z) : dtb_state :=
  mk_state c s n (root st)
           (handle_lookup st) (node_buff st) (node_buff_null st)
           (node_alloc_head st) (node_alloc_max st) (prop_buff st)
           (prop_alloc_head st) (prop_alloc_max st) (ops st) (errors st).

(** [dtb_init_with_config], without [SMOLDTB_STATIC_BUFFER_SIZE]. *)
Definition dtb_init_with_config (fuel : nat) (m : memory) (st : dtb_state)
  (start : Z) (o : dtb_ops) (config : option dtb_config)
  : result (bool * dtb_state) :=
  let st := set_ops st o in
  match config with
  | None => Ok (false, LOG_ERROR "Config argument cannot be null" st)
  | Some config =>
      let config := sanitise_config config in
      if negb (malloc (ops st)) then
        Ok (false, LOG_ERROR "ops.malloc() is NULL" st)
      else if negb (be32 (load32 m start) =? FDT_MAGIC) then
        Ok (false, LOG_ERROR "FDT has incorrect magic number." st)
      else
        let st :=
          set_blob st (start + be32 (load32 m (start + 8)))
                   (be32 (load32 m (start + 36)) / 4)
                   (start + be32 (load32 m (start + 12))) in
        let st := if negb (node_buff_null st) then free_buffers st else st in
        let st := alloc_buffers m st in
        st <- init_loop fuel m st 0 ;;
        Ok (true, st)
  end.

(** [dummy_conf.writable] is left unset by [dtb_init] and overwritten by
    [sanitise_config]; the embedding takes it as [false]. *)
Definition dtb_init (fuel : nat) (m : memory) (st : dtb_state) (start : Z)
  (o : dtb_ops) : result (bool * dtb_state) :=
  dtb_init_with_config fuel m st start o (Some (mk_config 0 false)).

(** ** Queries *)

Fixpoint find_prop_from (fuel : nat) (m : memory) (st : dtb_state)
  (prop : option nat) (name_ : cstr) (name_len : Z) : result (option nat) :=
  match prop with
  | None => Ok None
  | Some p =>
      match fuel with
      | O => OutOfFuel
      | S f =>
          let pname := at_addr m (prop_name (prop_buff st p)) in
          prop_name_len <- string_len f (Some pname) ;;
          if (prop_name_len =? name_len)
             && strings_eq pname name_ prop_name_len
          then Ok (Some p)
          else find_prop_from f m st (next (prop_buff st p)) name_ name_len
      end
  end.

Definition dtb_find_prop (fuel : nat) (m : memory) (st : dtb_state)
  (node : option nat) (name_ : cstr) : result (option nat) :=
  match node with
  | None => Ok None
  | Some n =>
      name_len <- string_len fuel (Some name_) ;;
      find_prop_from fuel m st (props (node_buff st n)) name_ name_len
  end.

(** The inner loop of [dtb_find_compatible] over the strings of one
    [compatible] property: [true] when one of them passes [strings_eq]. *)
Fixpoint compat_scan (fuel : nat) (m : memory) (st : dtb_state)
  (compat : nat) (str : cstr) (compatstr_len ci : Z) : result bool :=
  match fuel with
  | O => OutOfFuel
  | S f =>
      match dtb_read_prop_string m st (Some compat) ci with
      | None => Ok false
      | Some compat_str =>
          if strings_eq (at_addr m compat_str) str compatstr_len then Ok true
          else compat_scan f m st compat str compatstr_len (ci + 1)
      end
  end.

(** The outer loop of [dtb_find_compatible], for [n] more slots from [i]. *)
Fixpoint find_compatible_from (n : nat) (fuel : nat) (m : memory)
  (st : dtb_state) (str : cstr) (compatstr_len : Z) (i : nat)
  : result (option nat) :=
  match n with
  | O => Ok None
  | S n' =>
      compat <- dtb_find_prop fuel m st (Some i) (lit "compatible") ;;
      match compat with
      | None => find_compatible_from n' fuel m st str compatstr_len (S i)
      | Some c =>
          hit <- compat_scan fuel m st c str compatstr_len 0 ;;
          if hit then Ok (Some i)
          else find_compatible_from n' fuel m st str compatstr_len (S i)
      end
  end.

Definition dtb_find_compatible (fuel : nat) (m : memory) (st : dtb_state)
  (start : option nat) (str : cstr) : result (option nat) :=
  let begin_index :=
    match start with
    | None => 0%nat
    | Some s => S s
    end in
  compatstr_len <- string_len fuel (Some str) ;;
  find_compatible_from (node_alloc_head st - begin_index) fuel m st str
                       compatstr_len begin_index.

Definition dtb_find_phandle (st : dtb_state) (handle : Z) : option nat :=
  if handle <? Z.of_nat (node_alloc_max st) then handle_lookup st handle
  else None.

Definition dtb_get_sibling (st : dtb_state) (node : option nat) : option nat :=
  match node with
  | None => None
  | Some n =>
      match sibling (node_buff st n) with
      | None => None
      | Some s => Some s
      end
  end.

Definition dtb_get_child (st : dtb_state) (node : option nat) : option nat :=
  match node with
  | None => None
  | Some n => child (node_buff st n)
  end.

Definition dtb_get_parent (st : dtb_state) (node : option nat) : option nat :=
  match node with
  | None => None
  | Some n => parent (node_buff st n)
  end.

(** The walk of [dtb_get_prop]: [index] counts down to the slot wanted. *)
Fixpoint get_prop_from (n : nat) (st : dtb_state) (prop : option nat)
  : option nat :=
  match prop with
  | None => None
  | Some p =>
      match n with
      | O => Some p
      | S n' => get_prop_from n' st (next (prop_buff st p))
      end
  end.

Definition dtb_get_prop (st : dtb_state) (node : option nat) (index : Z)
  : option nat :=
  match node with
  | None => None
  | Some n => get_prop_from (Z.to_nat index) st (props (node_buff st n))
  end.

(** [dtb_node_stat] of [smoldtb.h], with the four fields the code fills. *)
Record dtb_node_stat : Type := mk_stat {
  stat_name : option cstr;
  prop_count : Z;
  child_count : Z;
  sibling_count : Z
}.

Definition ROOT_NODE_STR : string := "/".

Fixpoint count_props (fuel : nat) (st : dtb_state) (prop : option nat)
  (count : Z) : result Z :=
  match prop with
  | None => Ok count
  | Some p =>
      match fuel with
      | O => OutOfFuel
      | S f => count_props f st (next (prop_buff st p)) (wrap64 (count + 1))
      end
  end.

Fixpoint count_siblings (fuel : nat) (st : dtb_state) (node : option nat)
  (count : Z) : result Z :=
  match node with
  | None => Ok count
  | Some n =>
      match fuel with
      | O => OutOfFuel
      | S f =>
          count_siblings f st (sibling (node_buff st n)) (wrap64 (count + 1))
      end
  end.

Definition option_nat_eqb (a b : option nat) : bool :=
  match a, b with
  | Some x, Some y => Nat.eqb x y
  | None, None => true
  | _, _ => false
  end.

Definition dtb_stat_node (fuel : nat) (m : memory) (st : dtb_state)
  (node : option nat) (stat : dtb_node_stat) : result (bool * dtb_node_stat) :=
  match node with
  | None => Ok (false, stat)
  | Some n =>
      let nm := option_map (at_addr m) (name (node_buff st n)) in
      let nm :=
        if option_nat_eqb node (root st) then Some (lit ROOT_NODE_STR)
        else nm in
      pc <- count_props fuel st (props (node_buff st n)) 0 ;;
      cc <- count_siblings fuel st (child (node_buff st n)) 0 ;;
      sc <- match parent (node_buff st n) with
            | None => Ok 0
            | Some p => count_siblings fuel st (child (node_buff st p)) 0
            end ;;
      Ok (true, mk_stat nm pc cc sc)
  end.

(** ** Serialiser *)

(** [struct finalise_data].  The record is created uninitialised; a field
    is read only after the code has stored into it, so the embedding starts
    the unset fields at zero. *)
Record finalise_data : Type := mk_fd {
  struct_buf : Z;
  string_buf : Z;
  struct_ptr : Z;
  string_ptr : Z;
  struct_buf_size : Z;
  string_buf_size : Z;
  print_success : bool
}.

Definition with_sizes (d : finalise_data) (structs strs : Z) : finalise_data :=
  mk_fd (struct_buf d) (string_buf d) (struct_ptr d) (string_ptr d)
        structs strs (print_success d).
Definition with_struct_ptr (d : finalise_data) (v : Z) : finalise_data :=
  mk_fd (struct_buf d) (string_buf d) v (string_ptr d)
        (struct_buf_size d) (string_buf_size d) (print_success d).
Definition with_string_ptr (d : finalise_data) (v : Z) : finalise_data :=
  mk_fd (struct_buf d) (string_buf d) (struct_ptr d) v
        (struct_buf_size d) (string_buf_size d) (print_success d).
Definition with_print_success (d : finalise_data) (v : bool) : finalise_data :=
  mk_fd (struct_buf d) (string_buf d) (struct_ptr d) (string_ptr d)
        (struct_buf_size d) (string_buf_size d) v.

(** The [for] loop of [do_foreach_sibling]. *)
Fixpoint foreach_sibling_from {D : Type} (fuel : nat) (st : dtb_state)
  (action : option nat -> D -> result (Z * D)) (node : option nat)
  (opaque : D) : result D :=
  match node with
  | None => Ok opaque
  | Some n =>
      match fuel with
      | O => OutOfFuel
      | S f =>
          '(r, opaque) <- action (Some n) opaque ;;
          if r =? SMOLDTB_FOREACH_ABORT then Ok opaque
          else foreach_sibling_from f st action
                 (sibling (node_buff st n)) opaque
      end
  end.

Definition do_foreach_sibling {D : Type} (fuel : nat) (st : dtb_state)
  (begin : option nat) (action : option (option nat -> D -> result (Z * D)))
  (opaque : D) : result D :=
  match begin with
  | None => Ok opaque
  | Some _ =>
      match action with
      | None => Ok opaque
      | Some act => foreach_sibling_from fuel st act begin opaque
      end
  end.

(** The [for] loop of [do_foreach_prop]. *)
Fixpoint foreach_prop_from {D : Type} (fuel : nat) (st : dtb_state)
  (action : option nat -> option nat -> D -> result (Z * D))
  (node : option nat) (prop : option nat) (opaque : D) : result D :=
  match prop with
  | None => Ok opaque
  | Some p =>
      match fuel with
      | O => OutOfFuel
      | S f =>
          '(r, opaque) <- action node (Some p) opaque ;;
          if r =? SMOLDTB_FOREACH_ABORT then Ok opaque
          else foreach_prop_from f st action node
                 (next (prop_buff st p)) opaque
      end
  end.

Definition do_foreach_prop {D : Type} (fuel : nat) (st : dtb_state)
  (node : option nat)
  (action : option (option nat -> option nat -> D -> result (Z * D)))
  (opaque : D) : result D :=
  match node with
  | None => Ok opaque
  | Some n =>
      match props (node_buff st n) with
      | None => Ok opaque
      | Some _ =>
          match action with
          | None => Ok opaque
          | Some act =>
              foreach_prop_from fuel st act node (props (node_buff st n))
                                opaque
          end
      end
  end.

Definition init_finalise_data_prop (fuel : nat) (m : memory) (st : dtb_state)
  (node prop : option nat) (data : finalise_data)
  : result (Z * finalise_data) :=
  match node, prop with
  | Some _, Some p =>
      let structs := struct_buf_size data + 3 in
      let structs :=
        structs + dtb_align_up (prop_length (prop_buff st p)) FDT_CELL_SIZE
                  / FDT_CELL_SIZE in
      len <- string_len fuel (Some (at_addr m (prop_name (prop_buff st p)))) ;;
      Ok (SMOLDTB_FOREACH_CONTINUE,
          with_sizes data structs (string_buf_size data + (len + 1)))
  | _, _ => Ok (SMOLDTB_FOREACH_CONTINUE, data)
  end.

Fixpoint init_finalise_data (fuel : nat) (m : memory) (st : dtb_state)
  (node : option nat) (data : finalise_data) {struct fuel}
  : result (Z * finalise_data) :=
  match fuel with
  | O => OutOfFuel
  | S f =>
      match node with
      | None => Ok (SMOLDTB_FOREACH_CONTINUE, data)
      | Some n =>
          len <- string_len f (option_map (at_addr m) (name (node_buff st n))) ;;
          let structs := struct_buf_size data + 2 in
          let structs :=
            structs + dtb_align_up (len + 1) FDT_CELL_SIZE / FDT_CELL_SIZE in
          let data := with_sizes data structs (string_buf_size data) in
          data <- do_foreach_prop f st node
                    (Some (init_finalise_data_prop f m st)) data ;;
          data <- do_foreach_sibling f st (child (node_buff st n))
                    (Some (init_finalise_data f m st)) data ;;
          Ok (SMOLDTB_FOREACH_CONTINUE, data)
      end
  end.

(** The payload copy of [print_prop]. *)
Fixpoint copy_cells (n : nat) (m : memory) (data : finalise_data)
  (first i : Z) : finalise_data * memory :=
  match n with
  | O => (data, m)
  | S n' =>
      let m :=
        store32 m (struct_buf data + 4 * struct_ptr data)
                (load32 m (first + 4 * i)) in
      copy_cells n' m (with_struct_ptr data (struct_ptr data + 1)) first (i + 1)
  end.

(** The emission callbacks write through [data->struct_buf] and
    [data->string_buf]; their opaque argument is the record together with
    the memory it points into. *)
Definition print_prop (fuel : nat) (st : dtb_state) (node prop : option nat)
  (opaque : finalise_data * memory) : result (Z * (finalise_data * memory)) :=
  match prop with
  | None => Undefined
  | Some p =>
      let '(data, m) := opaque in
      let pr := prop_buff st p in
      let name_offset := wrap32 (string_ptr data) in
      name_len <- string_len fuel (Some (at_addr m (prop_name pr))) ;;
      if string_ptr data + name_len + 1 >? string_buf_size data then
        Ok (SMOLDTB_FOREACH_ABORT, (with_print_success data false, m))
      else
        let m :=
          memcpy m (string_buf data + string_ptr data) (prop_name pr)
                 name_len in
        let m := store8 m (string_buf data + (string_ptr data + name_len)) 0 in
        let data := with_string_ptr data (string_ptr data + (name_len + 1)) in
        let data_cells :=
          dtb_align_up (prop_length pr) FDT_CELL_SIZE / FDT_CELL_SIZE in
        if struct_ptr data + 3 + data_cells >? struct_buf_size data then
          Ok (SMOLDTB_FOREACH_ABORT, (with_print_success data false, m))
        else
          let m :=
            store32 m (struct_buf data + 4 * struct_ptr data) (be32 FDT_PROP) in
          let data := with_struct_ptr data (struct_ptr data + 1) in
          let m :=
            store32 m (struct_buf data + 4 * struct_ptr data)
                    (be32 (wrap32 (prop_length pr))) in
          let data := with_struct_ptr data (struct_ptr data + 1) in
          let m :=
            store32 m (struct_buf data + 4 * struct_ptr data)
                    (be32 name_offset) in
          let data := with_struct_ptr data (struct_ptr data + 1) in
          Ok (SMOLDTB_FOREACH_CONTINUE,
              copy_cells (Z.to_nat data_cells) m data (first_cell pr) 0)
  end.

Fixpoint print_node (fuel : nat) (st : dtb_state) (node : option nat)
  (opaque : finalise_data * memory) {struct fuel}
  : result (Z * (finalise_data * memory)) :=
  match fuel with
  | O => OutOfFuel
  | S f =>
      match node with
      | None => Undefined
      | Some n =>
          let '(data, m) := opaque in
          let nd := node_buff st n in
          name_len <- string_len f (option_map (at_addr m) (name nd)) ;;
          let name_cells :=
            dtb_align_up (name_len + 1) FDT_CELL_SIZE / FDT_CELL_SIZE in
          if struct_ptr data + 1 + name_cells >? struct_buf_size data then
            Ok (SMOLDTB_FOREACH_ABORT, (with_print_success data false, m))
          else
            let m :=
              store32 m (struct_buf data + 4 * struct_ptr data)
                      (be32 FDT_BEGIN_NODE) in
            let data := with_struct_ptr data (struct_ptr data + 1) in
            let name_buf := struct_buf data + 4 * struct_ptr data in
            let m :=
              memcpy m name_buf (match name nd with Some a => a | None => 0 end)
                     name_len in
            let m := store8 m (name_buf + name_len) 0 in
            let data := with_struct_ptr data (struct_ptr data + name_cells) in
            '(data, m) <- do_foreach_prop f st node (Some (print_prop f st))
                            (data, m) ;;
            if negb (print_success data) then
              Ok (SMOLDTB_FOREACH_ABORT, (data, m))
            else
              '(data, m) <- do_foreach_sibling f st (child nd)
                              (Some (print_node f st)) (data, m) ;;
              if negb (print_success data) then
                Ok (SMOLDTB_FOREACH_ABORT, (data, m))
              else if struct_ptr data + 1 >? struct_buf_size data then
                Ok (SMOLDTB_FOREACH_ABORT, (with_print_success data false, m))
              else
                let m :=
                  store32 m (struct_buf data + 4 * struct_ptr data)
                          (be32 FDT_END_NODE) in
                Ok (SMOLDTB_FOREACH_CONTINUE,
                    (with_struct_ptr data (struct_ptr data + 1), m))
      end
  end.

(** The sizing pass of [dtb_finalise_to_buffer] and the three totals it
    derives: the record, [struct_buf_bytes] and [total_bytes]. *)
Definition finalise_sizes (fuel : nat) (m : memory) (st : dtb_state)
  : result (finalise_data * Z * Z) :=
  let final_data := mk_fd 0 0 0 0 0 1 false in
  final_data <- do_foreach_sibling fuel st (root st)
                  (Some (init_finalise_data fuel m st)) final_data ;;
  let reserved_block_size := 2 * 8 in
  let struct_buf_bytes := struct_buf_size final_data * FDT_CELL_SIZE in
  let total_bytes :=
    string_buf_size final_data + struct_buf_bytes + sizeof_fdt_header
    + reserved_block_size in
  Ok (final_data, struct_buf_bytes, total_bytes).

Section Serialiser.

(** The failure sentinel is a macro of [smoldtb.h]; the serialiser is
    parametric in its value. *)
Variable SMOLDTB_FINALISE_FAILURE : Z.

(** [buffer] is an address, zero for the null pointer.  The result pairs the
    returned [size_t] with the memory the call leaves behind. *)
Definition dtb_finalise_to_buffer (fuel : nat) (m : memory) (st : dtb_state)
  (buffer buffer_size boot_cpu_id : Z) : result (Z * memory) :=
  '(final_data, struct_buf_bytes, total_bytes) <- finalise_sizes fuel m st ;;
  if (buffer =? 0) || (total_bytes <? buffer_size) then Ok (total_bytes, m)
  else if negb (Z.land buffer 3 =? 0) then Ok (total_bytes, m)
  else
    let header := buffer in
    let m := store32 m header (be32 FDT_MAGIC) in
    let m := store32 m (header + 4) (be32 (wrap32 total_bytes)) in
    let m := store32 m (header + 8) (be32 (sizeof_fdt_header + 16)) in
    let m :=
      store32 m (header + 12)
              (be32 (wrap32 (be32 (load32 m (header + 8)) + struct_buf_bytes)))
    in
    let m := store32 m (header + 16) (be32 sizeof_fdt_header) in
    let m := store32 m (header + 20) (be32 FDT_VERSION) in
    let m := store32 m (header + 24) (be32 16) in
    let m := store32 m (header + 28) (be32 boot_cpu_id) in
    let m :=
      store32 m (header + 32) (be32 (wrap32 (string_buf_size final_data))) in
    let m := store32 m (header + 36) (be32 (wrap32 struct_buf_bytes)) in
    let reserved_block := header + sizeof_fdt_header in
    let m := store64 m reserved_block 0 in
    let m := store64 m (reserved_block + 8) 0 in
    let final_data :=
      mk_fd (buffer + be32 (load32 m (header + 8)))
            (buffer + be32 (load32 m (header + 12)))
            0 1 (struct_buf_size final_data) (string_buf_size final_data)
            (print_success final_data) in
    let m := store8 m (string_buf final_data) 0 in
    let final_data := with_print_success final_data true in
    '(final_data, m) <- do_foreach_sibling fuel st (root st)
                          (Some (print_node fuel st)) (final_data, m) ;;
    Ok (if print_success final_data then total_bytes
        else SMOLDTB_FINALISE_FAILURE, m).

End Serialiser.

(** ** Test blobs

    [fdt_blob] lays out a version-17 blob the way the device-tree compiler
    does: header, an empty reservation map, structure block, strings
    block. *)

Definition be_bytes (w : Z) : list Z :=
  [ (w / 2 ^ 24) mod 256; (w / 2 ^ 16) mod 256; (w / 2 ^ 8) mod 256;
    w mod 256 ].

Definition fdt_blob (structs : list Z) (strs : list Z) : list Z :=
  let size_structs := 4 * Z.of_nat (List.length structs) in
  let size_strings := Z.of_nat (List.length strs) in
  List.concat (map be_bytes
            [ FDT_MAGIC; 56 + size_structs + size_strings; 56;
              56 + size_structs; 40; 17; 16; 0; size_strings; size_structs ])
  ++ repeat 0 16
  ++ List.concat (map be_bytes structs)
  ++ strs.

(** Memory holding [bytes] from address [base] on, zero elsewhere. *)
Definition mem_of (base : Z) (bytes : list Z) : memory :=
  fun a => if a <? base then 0 else nth (Z.to_nat (a - base)) bytes 0.

Definition host_ops : dtb_ops := mk_ops true true true.

(** Four bytes per cell, most significant first, zero-padded at the end. *)
Fixpoint pack (l : list Z) : list Z :=
  match l with
  | a :: b :: c :: d :: t => (a * 2 ^ 24 + b * 2 ^ 16 + c * 2 ^ 8 + d) :: pack t
  | [a; b; c] => [a * 2 ^ 24 + b * 2 ^ 16 + c * 2 ^ 8]
  | [a; b] => [a * 2 ^ 24 + b * 2 ^ 16]
  | [a] => [a * 2 ^ 24]
  | [] => []
  end.

(** A strings block: each name followed by its terminator. *)
Definition names (l : list string) : list Z :=
  flat_map (fun s => bytes_of s ++ [0]) l.

Definition init_ok (r : result (bool * dtb_state)) : bool :=
  match r with
  | Ok (b, _) => b
  | _ => false
  end.

Definition init_state (r : result (bool * dtb_state)) : dtb_state :=
  match r with
  | Ok (_, st) => st
  | _ => state0
  end.

(** [/ { };] : the smallest tree. *)
Definition blob_minimal : memory :=
  mem_of 4096 (fdt_blob [1; 0; 2; 9] []).

(** [/ { #interrupt-cells = <3>; phandle = <1>; };] *)
Definition blob_phandle : memory :=
  mem_of 4096
    (fdt_blob [1; 0; 3; 4; 0; 3; 3; 4; 17; 1; 2; 9]
              (names ["#interrupt-cells"%string; "phandle"%string])).

(** [/ { ab = <1>; cd = <8>; };] *)
Definition blob_two_props : memory :=
  mem_of 4096
    (fdt_blob [1; 0; 3; 4; 0; 1; 3; 4; 3; 8; 2; 9] (names ["ab"%string; "cd"%string])).

(** [/ { compatible = "vendor,foobar"; #address-cells = <1>;
         #interrupt-cells = <3>; };] *)
Definition blob_compat : memory :=
  mem_of 4096
    (fdt_blob ([1; 0; 3; 14; 0] ++ pack (bytes_of "vendor,foobar")
               ++ [3; 4; 11; 1; 3; 4; 26; 3; 2; 9])
              (names ["compatible"%string; "#address-cells"%string; "#interrupt-cells"%string])).


(** [/ { #address-cells = <1>; #interrupt-cells = <3>;
         a { }; b { }; c { }; };] : three children in blob order a, b, c. *)
Definition blob_children : memory :=
  mem_of 4096
    (fdt_blob ([1; 0; 3; 4; 0; 1; 3; 4; 15; 3]
               ++ [1] ++ pack (bytes_of "a") ++ [2]
               ++ [1] ++ pack (bytes_of "b") ++ [2]
               ++ [1] ++ pack (bytes_of "c") ++ [2]
               ++ [2; 9])
              (names ["#address-cells"%string; "#interrupt-cells"%string])).

Definition unwrap {A : Type} (d : A) (r : result A) : A :=
  match r with
  | Ok a => a
  | _ => d
  end.

(** ** Tree shape *)

(** The in-memory list that starts at a node pointer and follows
    [sibling]. *)
Inductive sibling_list (st : dtb_state) : option nat -> list nat -> Prop :=
| sibling_list_nil : sibling_list st None []
| sibling_list_cons (c : nat) (l : list nat) :
    sibling_list st (sibling (node_buff st c)) l ->
    sibling_list st (Some c) (c :: l).

(** The allocated nodes whose [parent] is [n], in arena order.  Slots are
    handed out in the order the parser meets [FDT_BEGIN_NODE] tokens, so
    this is the order of the blob. *)
Definition children_of (st : dtb_state) (n : nat) : list nat :=
  filter (fun c => option_nat_eqb (parent (node_buff st c)) (Some n))
         (seq 0 (node_alloc_head st)).



(** ** Invariants of the parser *)

(** The fields of the state that parsing a node leaves alone. *)
Definition same_blob (st st' : dtb_state) : Prop :=
  cells st' = cells st /\ strings st' = strings st
  /\ cell_count st' = cell_count st
  /\ node_alloc_max st' = node_alloc_max st
  /\ prop_alloc_max st' = prop_alloc_max st
  /\ handle_lookup st' = handle_lookup st
  /\ ops st' = ops st.

(** Slots not yet handed out are still as [alloc_buffers] zeroed them. *)
Definition fresh_nodes (st : dtb_state) : Prop :=
  forall i, (node_alloc_head st <= i)%nat ->
    parent (node_buff st i) = None /\ child (node_buff st i) = None.

Definition parents_older (st : dtb_state) : Prop :=
  forall c p, (c < node_alloc_head st)%nat ->
    parent (node_buff st c) = Some p -> (p < c)%nat.

Definition children_linked (st : dtb_state) : Prop :=
  forall n, (n < node_alloc_head st)%nat ->
    sibling_list st (child (node_buff st n)) (rev (children_of st n)).

(** Node names point into the structure block; a later slot has a name
    further on in the blob. *)
Definition names_sorted (st : dtb_state) : Prop :=
  forall i j a b, (i < j)%nat -> (j < node_alloc_head st)%nat ->
    name (node_buff st i) = Some a -> name (node_buff st j) = Some b -> a < b.

(** A name starts in the cell after the [FDT_BEGIN_NODE] token its node
    was created from. *)
Definition names_at_tokens (m : memory) (st : dtb_state) : Prop :=
  forall i a, (i < node_alloc_head st)%nat ->
    name (node_buff st i) = Some a ->
    be32 (load32 m (a - 4)) = FDT_BEGIN_NODE.

Definition names_below (st : dtb_state) (offset : Z) : Prop :=
  forall i a, (i < node_alloc_head st)%nat ->
    name (node_buff st i) = Some a -> a <= cells st + 4 * offset.

(** A parsed property: its [length] is the big-endian word two cells before
    its payload, which is where [dtb_read_prop_values] reads it again. *)
Definition parsed_prop (m : memory) (st : dtb_state) (p : nat) : Prop :=
  prop_length (prop_buff st p)
  = be32 (load32 m (first_cell (prop_buff st p) - 8)).

Definition props_parsed (m : memory) (st : dtb_state) : Prop :=
  forall p, (p < prop_alloc_head st)%nat -> parsed_prop m st p.

Record tree_inv (m : memory) (st : dtb_state) (offset : Z) : Prop :=
  mk_tree_inv {
    inv_fresh : fresh_nodes st;
    inv_parents : parents_older st;
    inv_children : children_linked st;
    inv_sorted : names_sorted st;
    inv_below : names_below st offset;
    inv_tokens : names_at_tokens m st;
    inv_props : props_parsed m st
  }.

(** What a run of the parser from [st] to [st'] may touch: slots handed out
    before the run keep their [parent]. *)
Definition extends (st st' : dtb_state) : Prop :=
  same_blob st st'
  /\ (node_alloc_head st <= node_alloc_head st')%nat
  /\ (forall i, (i < node_alloc_head st)%nat ->
        parent (node_buff st' i) = parent (node_buff st i)).

(** The three assignments that prepend [c] to the children of [node]. *)
Definition link_child (st : dtb_state) (node c : nat) : dtb_state :=
  let st :=
    set_node st c
      (with_sibling (node_buff st c) (child (node_buff st node))) in
  let st := set_node st node (with_child (node_buff st node) (Some c)) in
  set_node st c (with_parent (node_buff st c) (Some node)).

(** What [parse_node] guarantees about a run from [st] at cursor [off]. *)
Definition node_post (m : memory) (st : dtb_state) (off : Z)
  (st' : dtb_state) (off' : Z) (r : option nat) : Prop :=
  tree_inv m st' off' /\ extends st st' /\ off <= off'
  /\ (forall j p, (node_alloc_head st <= j)%nat ->
        (j < node_alloc_head st')%nat ->
        parent (node_buff st' j) = Some p -> (node_alloc_head st <= p)%nat)
  /\ (forall c, r = Some c ->
        c = node_alloc_head st /\ (node_alloc_head st < node_alloc_head st')%nat
        /\ parent (node_buff st' c) = None).

Definition loop_post (m : memory) (st : dtb_state) (off : Z) (node : nat)
  (st' : dtb_state) (off' : Z) (r : option nat) : Prop :=
  tree_inv m st' off' /\ extends st st' /\ off <= off'
  /\ (forall j p, (node_alloc_head st <= j)%nat ->
        (j < node_alloc_head st')%nat ->
        parent (node_buff st' j) = Some p ->
        (node_alloc_head st <= p)%nat \/ p = node)
  /\ (forall c, r = Some c -> c = node).



Definition st_children : dtb_state :=
  init_state (dtb_init 50 blob_children state0 4096 host_ops).

(** * Theorems *)

#[local] Arguments Z.mul : simpl never.
#[local] Arguments Z.add : simpl never.
#[local] Arguments Z.sub : simpl never.
#[local] Arguments Z.div : simpl never.
#[local] Arguments Z.modulo : simpl never.
#[local] Arguments Z.pow : simpl never.
#[local] Arguments string_len : simpl never.
#[local] Arguments LOG_ERROR : simpl never.
#[local] Arguments be32 : simpl never.
#[local] Arguments cell : simpl never.
#[local] Arguments dtb_align_up : simpl never.
#[local] Arguments parse_prop : simpl never.
#[local] Arguments check_for_special_prop : simpl never.

(** ** Null handles *)

(** C10: every read-only query and every decoder answers null, false or
    zero on a null handle.  The entry points are functions of the parser
    state that return no state: like their sources they assign to no field
    of [state] and contain no [LOG_ERROR]; [dtb_stat_node] and the decoders
    hand back the caller's output untouched. *)
Theorem null_handles_tolerated :
  forall (fuel : nat) (m : memory) (st : dtb_state) (name_ : cstr)
         (index k : Z) (stat : dtb_node_stat) (vals : option (list Z))
         (lp : dtb_pair) (vp : option (list dtb_pair))
         (lt : dtb_triplet) (vt : option (list dtb_triplet))
         (lq : dtb_quad) (vq : option (list dtb_quad)),
    dtb_find_prop fuel m st None name_ = Ok None
    /\ dtb_get_sibling st None = None
    /\ dtb_get_child st None = None
    /\ dtb_get_parent st None = None
    /\ dtb_get_prop st None index = None
    /\ dtb_stat_node fuel m st None stat = Ok (false, stat)
    /\ dtb_read_prop_string m st None index = None
    /\ dtb_read_prop_values m st None k vals = Ok (0, vals)
    /\ dtb_read_prop_pairs m st None lp vp = Ok (0, vp)
    /\ dtb_read_prop_triplets m st None lt vt = Ok (0, vt)
    /\ dtb_read_prop_quads m st None lq vq = Ok (0, vq).
Proof.
  intros. repeat split.
Qed.

(** ** Behaviour on concrete blobs *)

(** C3: on the minimal blob the sizing scan counts one node, [alloc_node]
    refuses the last slot ([0 + 1 < 1] fails), so [dtb_init] answers true
    with no root at all, and [dtb_stat_node] on that root answers false
    and fills nothing in. *)
Theorem minimal_blob_root_missing :
  let r := dtb_init 50 blob_minimal state0 4096 host_ops in
  let st := init_state r in
  init_ok r = true
  /\ node_alloc_max st = 1%nat
  /\ node_alloc_head st = 0%nat
  /\ errors st = ["Node allocation failed"%string;
                  "Node allocator ran out of space"%string]
  /\ root st = None
  /\ dtb_stat_node 50 blob_minimal st (root st) (mk_stat None 7 7 7)
     = Ok (false, mk_stat None 7 7 7).
Proof.
  vm_compute. repeat split.
Qed.

(** C1: the root of [blob_phandle] carries [phandle = <1>], slot 1 is
    inside the index, and yet [dtb_find_phandle 1] answers null: the guard
    at the top of [check_for_special_prop] holds for every character, so
    the index is never written. *)
Theorem phandle_index_not_populated :
  let r := dtb_init 50 blob_phandle state0 4096 host_ops in
  let st := init_state r in
  init_ok r = true
  /\ errors st = []
  /\ root st = Some 0%nat
  /\ dtb_find_prop 50 blob_phandle st (root st) (lit "phandle")
     = Ok (Some 1%nat)
  /\ dtb_read_prop_values blob_phandle st (Some 1%nat) 1 (Some [0])
     = Ok (1, Some [1])
  /\ (1 <? Z.of_nat (node_alloc_max st)) = true
  /\ dtb_find_phandle st 1 = None.
Proof.
  vm_compute. repeat split.
Qed.

(** C2: with a non-null, aligned buffer and [buffer_size = 0], below the
    total of 107 bytes, the call still emits: the test reads
    [total_bytes < buffer_size].  The magic number lands at the buffer
    address, which held zero before; a buffer larger than the total is the
    one that is left untouched. *)
Theorem finalise_small_buffer_emits :
  forall failure : Z,
    let m := blob_two_props in
    let st := init_state (dtb_init 50 m state0 4096 host_ops) in
    let sizing := unwrap (0, m) (dtb_finalise_to_buffer failure 50 m st 0 0 0) in
    let small := unwrap (0, m) (dtb_finalise_to_buffer failure 50 m st 8192 0 0) in
    let large := unwrap (0, m) (dtb_finalise_to_buffer failure 50 m st 8192 200 0) in
    fst sizing = 107
    /\ load32 m 8192 = 0
    /\ fst small = 107
    /\ be32 (load32 (snd small) 8192) = FDT_MAGIC
    /\ be32 (load32 (snd small) (8192 + 4)) = 107
    /\ fst large = 107
    /\ load32 (snd large) 8192 = 0.
Proof.
  intro failure. vm_compute. repeat split.
Qed.


(** C5: the only string of the root's [compatible] property is
    ["vendor,foobar"], and the query ["vendor,foo"] returns the root:
    [strings_eq] stops after the ten characters of the query, and
    [dtb_find_compatible] does not compare lengths as [dtb_find_prop]
    does. *)
Theorem find_compatible_prefix_match :
  let m := blob_compat in
  let st := init_state (dtb_init 50 m state0 4096 host_ops) in
  dtb_find_prop 50 m st (Some 0%nat) (lit "compatible") = Ok (Some 0%nat)
  /\ prop_length (prop_buff st 0%nat) = 14
  /\ map (at_addr m (first_cell (prop_buff st 0%nat)))
         [0; 1; 2; 3; 4; 5; 6; 7; 8; 9; 10; 11; 12; 13]
     = bytes_of "vendor,foobar" ++ [0]
  /\ dtb_find_compatible 50 m st None (lit "vendor,foo") = Ok (Some 0%nat).
Proof.
  vm_compute. repeat split.
Qed.

(** C6: the payload of the root's [compatible] property is the 14 bytes
    of one string, yet index 6 yields a pointer five bytes past the
    payload, into the [FDT_PROP] token that follows: the scan runs to
    [length * 4] bytes. *)
Theorem read_prop_string_past_payload :
  let m := blob_compat in
  let st := init_state (dtb_init 50 m state0 4096 host_ops) in
  first_cell (prop_buff st 0%nat) = 4172
  /\ prop_length (prop_buff st 0%nat) = 14
  /\ dtb_read_prop_string m st (Some 0%nat) 0 = Some 4172
  /\ dtb_read_prop_string m st (Some 0%nat) 1 = None
  /\ dtb_read_prop_string m st (Some 0%nat) 6 = Some (4172 + 14 + 5)
  /\ be32 (load32 m (4172 + 16)) = FDT_PROP.
Proof.
  vm_compute. repeat split.
Qed.

(** ** Arithmetic of the decoders *)














(** ** The parser keeps the tree invariant *)


Lemma option_nat_eqb_eq (a b : option nat) :
  option_nat_eqb a b = true <-> a = b.
Proof.
  destruct a as [x|], b as [y|]; simpl; split; intro E;
    try discriminate; try reflexivity.
  - apply Nat.eqb_eq in E. now subst.
  - injection E as ->. apply Nat.eqb_refl.
Qed.

Lemma In_children_of (st : dtb_state) (n c : nat) :
  In c (children_of st n)
  <-> (c < node_alloc_head st)%nat /\ parent (node_buff st c) = Some n.
Proof.
  unfold children_of. rewrite filter_In, in_seq, option_nat_eqb_eq.
  split; intros [A B]; split; auto; lia.
Qed.

Lemma sibling_list_ext (st st' : dtb_state) (o : option nat) (l : list nat) :
  (forall c, In c l -> sibling (node_buff st' c) = sibling (node_buff st c)) ->
  sibling_list st o l -> sibling_list st' o l.
Proof.
  intros E S. induction S as [|c l S IH].
  - constructor.
  - constructor. rewrite E by (left; reflexivity).
    apply IH. intros d Hd. apply E. now right.
Qed.

Lemma filter_none {A : Type} (f : A -> bool) (l : list A) :
  (forall x, In x l -> f x = false) -> filter f l = [].
Proof.
  induction l as [|x l IH]; simpl; intro E; [reflexivity|].
  rewrite E by now left. apply IH. intros y Hy. apply E. now right.
Qed.

Lemma seq_split3 (c h : nat) :
  (c < h)%nat -> seq 0 h = seq 0 c ++ c :: seq (S c) (h - S c).
Proof.
  intro L. replace h with (c + S (h - S c))%nat at 1 by lia.
  rewrite seq_app. reflexivity.
Qed.

Lemma filter_seq_add (f g : nat -> bool) (c h : nat) :
  (c < h)%nat -> f c = false -> g c = true ->
  (forall i, i <> c -> g i = f i) ->
  (forall i, (c < i)%nat -> (i < h)%nat -> f i = false) ->
  filter g (seq 0 h) = filter f (seq 0 h) ++ [c].
Proof.
  intros L Fc Gc E T.
  rewrite (seq_split3 c h L), !filter_app. simpl. rewrite Fc, Gc.
  rewrite (filter_none f (seq (S c) _)), (filter_none g (seq (S c) _)).
  - rewrite app_nil_r. f_equal. apply filter_ext_in.
    intros i Hi. apply in_seq in Hi. apply E. lia.
  - intros i Hi. apply in_seq in Hi. rewrite E by lia. apply T; lia.
  - intros i Hi. apply in_seq in Hi. apply T; lia.
Qed.

Lemma children_of_ext (st st' : dtb_state) (n : nat) :
  node_alloc_head st' = node_alloc_head st ->
  (forall c, (c < node_alloc_head st)%nat ->
     parent (node_buff st' c) = parent (node_buff st c)) ->
  children_of st' n = children_of st n.
Proof.
  intros H E. unfold children_of. rewrite H. apply filter_ext_in.
  intros c Hc. apply in_seq in Hc. rewrite E by lia. reflexivity.
Qed.

Lemma children_of_alloc (st st' : dtb_state) (n : nat) :
  node_alloc_head st' = S (node_alloc_head st) ->
  (forall c, (c < node_alloc_head st)%nat ->
     parent (node_buff st' c) = parent (node_buff st c)) ->
  parent (node_buff st' (node_alloc_head st)) = None ->
  children_of st' n = children_of st n.
Proof.
  intros H E F. unfold children_of. rewrite H, seq_S, filter_app. simpl.
  rewrite F. simpl. rewrite app_nil_r. apply filter_ext_in.
  intros c Hc. apply in_seq in Hc. rewrite E by lia. reflexivity.
Qed.

Section TreeInvariant.

Variable m : memory.

Lemma tree_inv_transfer (st st' : dtb_state) (off off' : Z) :
  node_alloc_head st' = node_alloc_head st ->
  cells st' = cells st ->
  (forall i, parent (node_buff st' i) = parent (node_buff st i)
             /\ child (node_buff st' i) = child (node_buff st i)
             /\ name (node_buff st' i) = name (node_buff st i)) ->
  (forall i, parent (node_buff st i) <> None ->
             sibling (node_buff st' i) = sibling (node_buff st i)) ->
  props_parsed m st' ->
  off <= off' ->
  tree_inv m st off -> tree_inv m st' off'.
Proof.
  intros H C E S P L [F Pa Ch So Be To _].
  constructor; trivial.
  - intros i Hi. rewrite H in Hi. destruct (E i) as (-> & -> & _). now apply F.
  - intros c p Hc. rewrite H in Hc. destruct (E c) as (-> & _). now apply Pa.
  - intros n Hn. rewrite H in Hn. destruct (E n) as (_ & -> & _).
    rewrite (children_of_ext st st' n H) by (intros c _; apply E).
    apply sibling_list_ext with (st := st); [|now apply Ch].
    intros c Hc. apply S. rewrite <- in_rev in Hc.
    apply In_children_of in Hc. destruct Hc as [_ ->]. discriminate.
  - intros i j a b Hij Hj. rewrite H in Hj.
    destruct (E i) as (_ & _ & ->), (E j) as (_ & _ & ->). now apply So.
  - intros i a Hi. rewrite H in Hi. destruct (E i) as (_ & _ & ->).
    rewrite C. intro N. specialize (Be i a Hi N). lia.
  - intros i a Hi. rewrite H in Hi. destruct (E i) as (_ & _ & ->).
    now apply To.
Qed.

Lemma extends_refl (st : dtb_state) : extends st st.
Proof. repeat split; auto. Qed.

Lemma same_blob_trans (a b c : dtb_state) :
  same_blob a b -> same_blob b c -> same_blob a c.
Proof.
  unfold same_blob. intros (A1 & A2 & A3 & A4 & A5 & A6 & A7)
                           (B1 & B2 & B3 & B4 & B5 & B6 & B7).
  repeat split; congruence.
Qed.

Lemma extends_trans (a b c : dtb_state) :
  extends a b -> extends b c -> extends a c.
Proof.
  intros (S1 & H1 & P1) (S2 & H2 & P2). split; [|split].
  - eapply same_blob_trans; eassumption.
  - lia.
  - intros i Hi. rewrite P2 by lia. now apply P1.
Qed.

Lemma LOG_ERROR_fields (msg : string) (st : dtb_state) :
  node_buff (LOG_ERROR msg st) = node_buff st
  /\ node_alloc_head (LOG_ERROR msg st) = node_alloc_head st
  /\ prop_buff (LOG_ERROR msg st) = prop_buff st
  /\ prop_alloc_head (LOG_ERROR msg st) = prop_alloc_head st
  /\ root (LOG_ERROR msg st) = root st
  /\ same_blob st (LOG_ERROR msg st).
Proof.
  unfold LOG_ERROR, same_blob. destruct (on_error (ops st)); simpl; repeat split.
Qed.

(** States that differ in neither arena. *)
Lemma tree_inv_same_arenas (st st' : dtb_state) (off off' : Z) :
  node_buff st' = node_buff st ->
  node_alloc_head st' = node_alloc_head st ->
  prop_buff st' = prop_buff st ->
  prop_alloc_head st' = prop_alloc_head st ->
  cells st' = cells st ->
  off <= off' ->
  tree_inv m st off -> tree_inv m st' off'.
Proof.
  intros N H P PH C L I.
  apply tree_inv_transfer with (st := st) (off := off); trivial.
  - intro i. rewrite N. auto.
  - intros i _. now rewrite N.
  - intros p Hp. unfold parsed_prop. rewrite P. rewrite PH in Hp.
    now apply (inv_props _ _ _ I).
Qed.

Lemma tree_inv_LOG_ERROR (msg : string) (st : dtb_state)
  (off off' : Z) :
  off <= off' -> tree_inv m st off -> tree_inv m (LOG_ERROR msg st) off'.
Proof.
  intros L I.
  destruct (LOG_ERROR_fields msg st) as (A & B & C & D & _ & S).
  apply tree_inv_same_arenas with (st := st) (off := off); trivial.
  apply S.
Qed.

Lemma extends_LOG_ERROR (msg : string) (st : dtb_state) :
  extends st (LOG_ERROR msg st).
Proof.
  destruct (LOG_ERROR_fields msg st) as (A & B & C & D & _ & S).
  split; [exact S|]. rewrite A, B. auto.
Qed.

(** ** [link_child] *)

Lemma link_child_fields (st : dtb_state) (node c : nat) :
  node <> c ->
  let st' := link_child st node c in
  (forall i, parent (node_buff st' i)
             = if Nat.eqb i c then Some node else parent (node_buff st i))
  /\ (forall i, sibling (node_buff st' i)
                = if Nat.eqb i c then child (node_buff st node)
                  else sibling (node_buff st i))
  /\ (forall i, child (node_buff st' i)
                = if Nat.eqb i node then Some c else child (node_buff st i))
  /\ (forall i, name (node_buff st' i) = name (node_buff st i))
  /\ (forall i, props (node_buff st' i) = props (node_buff st i)).
Proof.
  intros N. unfold link_child, set_node, upd. simpl.
  split; [|split; [|split; [|split]]]; intro i;
    destruct (Nat.eqb_spec i c) as [Ec|Hc];
    destruct (Nat.eqb_spec i node) as [En|Hn];
    try congruence; simpl;
    repeat (simpl;
            match goal with
            | |- context [Nat.eqb ?a ?b] =>
                destruct (Nat.eqb_spec a b); try congruence
            end); simpl; try reflexivity; try congruence.
Qed.

Lemma tree_inv_link_child (st : dtb_state) (off : Z)
  (node c : nat) :
  tree_inv m st off ->
  (node < c)%nat -> (c < node_alloc_head st)%nat ->
  parent (node_buff st c) = None ->
  (forall d, In d (children_of st node) -> (d < c)%nat) ->
  tree_inv m (link_child st node c) off.
Proof.
  intros [F Pa Ch So Be To Pr] Lt Hc Pc Old.
  assert (N : node <> c) by lia.
  destruct (link_child_fields st node c N) as (EP & ES & EC & EN & _).
  assert (EH : node_alloc_head (link_child st node c) = node_alloc_head st)
    by reflexivity.
  assert (Grow : children_of (link_child st node c) node
                 = children_of st node ++ [c]).
  { unfold children_of. rewrite EH. apply filter_seq_add; trivial.
    - rewrite Pc. reflexivity.
    - rewrite EP, Nat.eqb_refl. simpl. apply Nat.eqb_refl.
    - intros i Hi. rewrite EP. apply Nat.eqb_neq in Hi. now rewrite Hi.
    - intros i Hi1 Hi2.
      destruct (option_nat_eqb (parent (node_buff st i)) (Some node)) eqn:E;
        [|reflexivity].
      apply option_nat_eqb_eq in E.
      assert (In i (children_of st node)) by (apply In_children_of; auto).
      specialize (Old i H). lia. }
  assert (Same : forall n, n <> node ->
            children_of (link_child st node c) n = children_of st n).
  { intros n Hn. unfold children_of. rewrite EH. apply filter_ext_in.
    intros i Hi. rewrite EP. destruct (Nat.eqb_spec i c) as [->|]; trivial.
    rewrite Pc. simpl. destruct (Nat.eqb_spec node n); congruence. }
  assert (Keep : forall n l, (forall d, In d l -> In d (children_of st n)) ->
            sibling_list st (child (node_buff st n)) l ->
            sibling_list (link_child st node c) (child (node_buff st n)) l).
  { intros n l Sub. apply sibling_list_ext. intros d Hd. rewrite ES.
    destruct (Nat.eqb_spec d c) as [->|]; trivial.
    apply Sub, In_children_of in Hd. destruct Hd as [_ Hd]. congruence. }
  constructor.
  - intros i Hi. rewrite EH in Hi. rewrite EP, EC.
    destruct (Nat.eqb_spec i c); [lia|].
    destruct (Nat.eqb_spec i node); [lia|]. now apply F.
  - intros d p Hd. rewrite EP.
    destruct (Nat.eqb_spec d c) as [->|]; [intro E; injection E; lia|].
    now apply Pa.
  - intros n Hn. rewrite EH in Hn. rewrite EC.
    destruct (Nat.eqb_spec n node) as [->|Hne].
    + rewrite Grow, rev_app_distr. simpl. constructor.
      rewrite ES, Nat.eqb_refl. apply Keep; [|now apply Ch].
      intros d Hd. now apply in_rev.
    + rewrite Same by trivial. apply Keep; [|now apply Ch].
      intros d Hd. now apply in_rev.
  - intros i j a b Hij Hj. rewrite !EN. now apply So.
  - intros i a Hi. rewrite EN. now apply Be.
  - intros i a Hi. rewrite EN. now apply To.
  - exact Pr.
Qed.

Lemma bind_Ok {A B : Type} (r : result A) (k : A -> result B) (b : B) :
  bind r k = Ok b -> exists a, r = Ok a /\ k a = Ok b.
Proof.
  destruct r; simpl; intro E; try discriminate. eauto.
Qed.

Lemma wrap64_nonneg (x : Z) : 0 <= wrap64 x.
Proof. unfold wrap64. apply Z.mod_pos_bound. reflexivity. Qed.

Lemma align_cells_nonneg (x : Z) : 0 <= dtb_align_up x 4 / 4.
Proof.
  apply Z.div_pos; [|reflexivity]. unfold dtb_align_up. apply wrap64_nonneg.
Qed.

Lemma check_for_special_prop_id (fuel : nat) (st : dtb_state)
  (node prop : nat) :
  check_for_special_prop fuel m st node prop = Ok st.
Proof.
  unfold check_for_special_prop.
  set (c := at_addr m (prop_name (prop_buff st prop)) 0).
  destruct (c =? char "#") eqn:E1; [|reflexivity].
  destruct (c =? char "p") eqn:E2; [|reflexivity].
  apply Z.eqb_eq in E1, E2. rewrite E1 in E2. discriminate.
Qed.

(** Allocating a node and giving it a name. *)
Lemma tree_inv_begin_node (st st' : dtb_state) (off off' : Z) :
  tree_inv m st off ->
  node_alloc_head st' = S (node_alloc_head st) ->
  cells st' = cells st ->
  prop_buff st' = prop_buff st ->
  prop_alloc_head st' = prop_alloc_head st ->
  (forall i, parent (node_buff st' i) = parent (node_buff st i)
             /\ child (node_buff st' i) = child (node_buff st i)
             /\ sibling (node_buff st' i) = sibling (node_buff st i)) ->
  (forall i, i <> node_alloc_head st ->
             name (node_buff st' i) = name (node_buff st i)) ->
  (forall a, name (node_buff st' (node_alloc_head st)) = Some a ->
             a = cells st + 4 * off + 4) ->
  be32 (cell m st off) = FDT_BEGIN_NODE ->
  off + 1 <= off' ->
  tree_inv m st' off'.
Proof.
  intros [F Pa Ch So Be To Pr] H C PB PH E EN New Tok L.
  destruct (F (node_alloc_head st) (le_n _)) as [Fp Fc].
  assert (CO : forall n, children_of st' n = children_of st n).
  { intro n. apply children_of_alloc; trivial.
    - intros c _. apply E.
    - destruct (E (node_alloc_head st)) as (-> & _). exact Fp. }
  constructor.
  - intros i Hi. rewrite H in Hi. destruct (E i) as (-> & -> & _).
    apply F. lia.
  - intros c p Hc. rewrite H in Hc. destruct (E c) as (-> & _).
    assert (X : (c < node_alloc_head st)%nat \/ c = node_alloc_head st) by lia.
    destruct X as [X| ->]; [now apply Pa|]. rewrite Fp. discriminate.
  - intros n Hn. rewrite H in Hn. rewrite CO.
    destruct (E n) as (_ & -> & _).
    assert (X : (n < node_alloc_head st)%nat \/ n = node_alloc_head st) by lia.
    destruct X as [X| ->].
    + apply sibling_list_ext with (st := st); [|now apply Ch].
      intros c _. apply E.
    + rewrite Fc.
      assert (Z0 : children_of st (node_alloc_head st) = []).
      { unfold children_of. apply filter_none. intros c Hc.
        apply in_seq in Hc.
        destruct (option_nat_eqb (parent (node_buff st c))
                    (Some (node_alloc_head st))) eqn:Q; [|reflexivity].
        apply option_nat_eqb_eq in Q. apply Pa in Q; lia. }
      rewrite Z0. constructor.
  - intros i j a b Hij Hj Ni Nj. rewrite H in Hj.
    rewrite EN in Ni by lia.
    assert (X : (j < node_alloc_head st)%nat \/ j = node_alloc_head st) by lia.
    destruct X as [X| ->].
    + rewrite EN in Nj by lia. exact (So i j a b Hij X Ni Nj).
    + apply New in Nj. specialize (Be i a Hij Ni). lia.
  - intros i a Hi Ni. rewrite H in Hi. rewrite C.
    assert (X : (i < node_alloc_head st)%nat \/ i = node_alloc_head st) by lia.
    destruct X as [X| ->].
    + rewrite EN in Ni by lia. specialize (Be i a X Ni). lia.
    + apply New in Ni. lia.
  - intros i a Hi Ni. rewrite H in Hi.
    assert (X : (i < node_alloc_head st)%nat \/ i = node_alloc_head st) by lia.
    destruct X as [X| ->].
    + rewrite EN in Ni by lia. now apply (To i).
    + apply New in Ni. subst a. rewrite Z.add_simpl_r. exact Tok.
  - intros p Hp. unfold parsed_prop. rewrite PB. rewrite PH in Hp.
    now apply Pr.
Qed.

Lemma parse_prop_spec (st st' : dtb_state) (off off' : Z)
  (r : option nat) :
  parse_prop m st off = (st', off', r) ->
  tree_inv m st off ->
  tree_inv m st' off' /\ extends st st' /\ off <= off'
  /\ node_buff st' = node_buff st
  /\ node_alloc_head st' = node_alloc_head st.
Proof.
  unfold parse_prop. intros E I.
  destruct (negb (be32 (cell m st off) =? FDT_PROP)).
  { injection E as <- <- <-.
    split; [exact I|]. split; [apply extends_refl|]. split; [lia|]. auto. }
  unfold alloc_prop in E.
  destruct (prop_alloc_head st + 1 <? prop_alloc_max st)%nat.
  - injection E as <- <- <-.
    match goal with
    | |- context [dtb_align_up ?x 4 / 4] => pose proof (align_cells_nonneg x)
    end.
    split; [|split; [|split; [lia|auto]]];
      [|split; [repeat split|split; [simpl; lia|intros; reflexivity]]].
    apply tree_inv_transfer with (st := st) (off := off);
      simpl; auto; try lia.
    intros p Hp. unfold parsed_prop, set_prop, set_prop_alloc_head, upd. simpl.
    destruct (Nat.eqb_spec p (prop_alloc_head st)) as [->|Ne]; simpl.
    + rewrite Z.add_simpl_r. reflexivity.
    + apply (inv_props _ _ _ I). simpl in Hp. lia.
  - injection E as <- <- <-.
    destruct (LOG_ERROR_fields "Property allocator ran out of space" st)
      as (A1 & A2 & A3 & A4 & _ & A5).
    destruct (LOG_ERROR_fields "Property allocation failed"
                (LOG_ERROR "Property allocator ran out of space" st))
      as (B1 & B2 & B3 & B4 & _ & B5).
    split; [|split; [|split; [|split]]].
    + apply tree_inv_LOG_ERROR with (off := off + 1); [lia|].
      apply tree_inv_LOG_ERROR with (off := off); [lia|exact I].
    + eapply extends_trans; apply extends_LOG_ERROR.
    + lia.
    + congruence.
    + congruence.
Qed.


Lemma extends_link_child (st : dtb_state) (node c : nat) (h : nat) :
  node <> c -> (h <= c)%nat -> (h <= node_alloc_head st)%nat ->
  same_blob st (link_child st node c)
  /\ node_alloc_head (link_child st node c) = node_alloc_head st
  /\ (forall i, (i < h)%nat ->
        parent (node_buff (link_child st node c) i) = parent (node_buff st i)).
Proof.
  intros N Hc Hh. destruct (link_child_fields st node c N) as (EP & _).
  split; [repeat split|]. split; [reflexivity|].
  intros i Hi. rewrite EP. destruct (Nat.eqb_spec i c); [lia|reflexivity].
Qed.

Lemma parse_spec (f : nat) :
  (forall st off st' off' r,
     tree_inv m st off ->
     parse_node f m st off = Ok (st', off', r) ->
     node_post m st off st' off' r)
  /\ (forall st off node st' off' r,
        tree_inv m st off ->
        (node < node_alloc_head st)%nat ->
        parse_node_loop f m st off node = Ok (st', off', r) ->
        loop_post m st off node st' off' r).
Proof.
  induction f as [|f [IHn IHl]]; [split; intros; discriminate|].
  split.
  - (* parse_node *)
    intros st off st' off' r I E. simpl in E.
    destruct (be32 (cell m st off) =? FDT_BEGIN_NODE) eqn:Tok;
      cbn [negb] in E.
    2:{ injection E as <- <- <-. unfold node_post.
      split; [exact I|]. split; [apply extends_refl|]. split; [lia|].
      split; [intros; lia|intros; discriminate]. }
    unfold alloc_node in E.
    destruct (node_alloc_head st + 1 <? node_alloc_max st)%nat.
    + apply bind_Ok in E. destruct E as (name_len & _ & E).
      match type of E with
      | parse_node_loop f m ?s ?o _ = _ => set (st3 := s) in E; set (off3 := o) in E
      end.
      assert (H3 : node_alloc_head st3 = S (node_alloc_head st))
        by (unfold st3; destruct (name_len =? 0); reflexivity).
      assert (F3 : forall i,
                 parent (node_buff st3 i) = parent (node_buff st i)
                 /\ child (node_buff st3 i) = child (node_buff st i)
                 /\ sibling (node_buff st3 i) = sibling (node_buff st i)).
      { intro i. unfold st3, set_node, upd.
        destruct (name_len =? 0); simpl; rewrite ?Nat.eqb_refl; simpl;
          destruct (Nat.eqb_spec i (node_alloc_head st)) as [->|];
          simpl; auto. }
      assert (I3 : tree_inv m st3 off3).
      { apply tree_inv_begin_node with (st := st) (off := off); trivial.
        - unfold st3. destruct (name_len =? 0); reflexivity.
        - unfold st3. destruct (name_len =? 0); reflexivity.
        - unfold st3. destruct (name_len =? 0); reflexivity.
        - intros i Hi. unfold st3, set_node, upd.
          destruct (name_len =? 0); simpl; rewrite ?Nat.eqb_refl; simpl;
            destruct (Nat.eqb_spec i (node_alloc_head st)); simpl;
            congruence.
        - intros a. unfold st3, set_node, upd.
          destruct (name_len =? 0); simpl; rewrite ?Nat.eqb_refl; simpl;
            congruence.
        - now apply Z.eqb_eq.
        - unfold off3. pose proof (align_cells_nonneg (name_len + 1)).
          unfold FDT_CELL_SIZE. lia. }
      destruct (IHl st3 off3 (node_alloc_head st) st' off' r I3
                  ltac:(lia) E) as (I' & (SB & HH & PP) & L' & NP & R).
      destruct (inv_fresh _ _ _ I (node_alloc_head st) (le_n _)) as [Fp _].
      unfold node_post. split; [exact I'|]. split; [|split; [|split]].
      * split; [|split].
        -- eapply same_blob_trans; [|exact SB].
           unfold st3. destruct (name_len =? 0); repeat split.
        -- lia.
        -- intros i Hi. rewrite PP by lia. apply F3.
      * unfold off3 in L'. pose proof (align_cells_nonneg (name_len + 1)).
        unfold FDT_CELL_SIZE in L'. lia.
      * intros j p Hj1 Hj2 Pj.
        assert (X : j = node_alloc_head st \/ (node_alloc_head st3 <= j)%nat)
          by lia.
        destruct X as [->|X].
        -- rewrite PP in Pj by lia. destruct (F3 (node_alloc_head st)) as (Q & _).
           rewrite Q, Fp in Pj. discriminate.
        -- destruct (NP j p X Hj2 Pj); lia.
      * intros c Rc. apply R in Rc. subst c. split; [reflexivity|].
        split; [lia|]. rewrite PP by lia.
        destruct (F3 (node_alloc_head st)) as (Q & _). now rewrite Q.
    + injection E as <- <- <-. unfold node_post.
      split; [|split; [|split; [lia|split]]].
      * apply tree_inv_LOG_ERROR with (off := off); [lia|].
        apply tree_inv_LOG_ERROR with (off := off); [lia|exact I].
      * eapply extends_trans; apply extends_LOG_ERROR.
      * intros j p Hj1 Hj2.
        destruct (LOG_ERROR_fields "Node allocator ran out of space" st)
          as (_ & A2 & _).
        destruct (LOG_ERROR_fields "Node allocation failed"
                    (LOG_ERROR "Node allocator ran out of space" st))
          as (_ & B2 & _).
        rewrite B2, A2 in Hj2. lia.
      * intros; discriminate.
  - (* parse_node_loop *)
    intros st off node st' off' r I Hn E. simpl in E.
    destruct (off <? cell_count st).
    2:{ injection E as <- <- <-. unfold loop_post.
        destruct (LOG_ERROR_fields "Node is missing terminating tag." st)
          as (_ & A2 & _).
        split; [|split; [|split; [lia|split]]].
        - apply tree_inv_LOG_ERROR with (off := off); [lia|exact I].
        - apply extends_LOG_ERROR.
        - intros j p Hj1 Hj2. rewrite A2 in Hj2. lia.
        - intros; discriminate. }
    destruct (be32 (cell m st off) =? FDT_END_NODE).
    { injection E as <- <- <-. unfold loop_post.
      split; [|split; [|split; [lia|split]]].
      - apply tree_inv_same_arenas with (st := st) (off := off); trivial. lia.
      - apply extends_refl.
      - intros; lia.
      - intros c Hc. now injection Hc. }
    destruct (be32 (cell m st off) =? FDT_BEGIN_NODE).
    { apply bind_Ok in E. destruct E as ([[st1 off1] child_] & E1 & E).
      destruct (IHn st off st1 off1 child_ I E1)
        as (I1 & (SB1 & HH1 & PP1) & L1 & NP1 & R1).
      destruct child_ as [c|].
      - destruct (R1 c eq_refl) as (-> & Hlt & Pc).
        change (parse_node_loop f m (link_child st1 node (node_alloc_head st))
                                off1 node = Ok (st', off', r)) in E.
        assert (Old : forall d, In d (children_of st1 node) ->
                                (d < node_alloc_head st)%nat).
        { intros d Hd. apply In_children_of in Hd. destruct Hd as [Hd Pd].
          destruct (Nat.lt_ge_cases d (node_alloc_head st)) as [|Ge]; trivial.
          specialize (NP1 d node Ge Hd Pd). lia. }
        assert (I2 : tree_inv m (link_child st1 node (node_alloc_head st)) off1)
          by (apply tree_inv_link_child; trivial).
        destruct (extends_link_child st1 node (node_alloc_head st)
                    (node_alloc_head st) ltac:(lia) (le_n _) HH1)
          as (SB2 & HH2 & PP2).
        destruct (link_child_fields st1 node (node_alloc_head st) ltac:(lia))
          as (EP & _).
        destruct (IHl _ off1 node st' off' r I2 ltac:(rewrite HH2; lia) E)
          as (I' & (SB' & HH' & PP') & L' & NP' & R').
        unfold loop_post. split; [exact I'|]. split; [|split; [lia|split]].
        + split; [|split].
          * eapply same_blob_trans; [exact SB1|].
            eapply same_blob_trans; [exact SB2|exact SB'].
          * lia.
          * intros i Hi. rewrite PP' by (rewrite HH2; lia).
            rewrite PP2 by lia. now apply PP1.
        + intros j p Hj1 Hj2 Pj. rewrite HH2 in *.
          destruct (Nat.lt_ge_cases j (node_alloc_head st1)) as [Lt|Ge].
          * rewrite PP' in Pj by lia. rewrite EP in Pj.
            destruct (Nat.eqb_spec j (node_alloc_head st)).
            -- right. congruence.
            -- left. eapply NP1; eauto.
          * destruct (NP' j p ltac:(lia) Hj2 Pj); [left; lia|now right].
        + exact R'.
      - destruct (IHl st1 off1 node st' off' r I1 ltac:(lia) E)
          as (I' & (SB' & HH' & PP') & L' & NP' & R').
        unfold loop_post. split; [exact I'|]. split; [|split; [lia|split]].
        + split; [|split].
          * eapply same_blob_trans; eassumption.
          * lia.
          * intros i Hi. rewrite PP' by lia. now apply PP1.
        + intros j p Hj1 Hj2 Pj.
          destruct (Nat.lt_ge_cases j (node_alloc_head st1)) as [Lt|Ge].
          * rewrite PP' in Pj by lia. left. eapply NP1; eauto.
          * destruct (NP' j p Ge Hj2 Pj); [left; lia|now right].
        + exact R'. }
    destruct (be32 (cell m st off) =? FDT_PROP).
    { destruct (parse_prop m st off) as [[st1 off1] prop_] eqn:EP.
      destruct (parse_prop_spec st st1 off off1 prop_ EP I)
        as (I1 & X1 & L1 & NB1 & NH1).
      destruct prop_ as [p|].
      - apply bind_Ok in E. destruct E as (st2 & EC & E).
        rewrite check_for_special_prop_id in EC. injection EC as EC.
        assert (I2 : tree_inv m st2 off1).
        { subst st2.
          apply tree_inv_transfer with (st := st1) (off := off1);
            trivial; try lia.
          - intro i. unfold set_node, set_prop, upd. simpl.
            destruct (Nat.eqb_spec i node) as [->|]; simpl; auto.
          - intros i _. unfold set_node, set_prop, upd. simpl.
            destruct (Nat.eqb_spec i node) as [->|]; simpl; auto.
          - intros q Hq. unfold parsed_prop, set_node, set_prop, upd. simpl.
            destruct (Nat.eqb_spec q p) as [->|]; simpl;
              apply (inv_props _ _ _ I1); exact Hq. }
        assert (X2 : extends st1 st2).
        { subst st2. split; [repeat split|]. split; [simpl; lia|].
          intros i _. unfold set_node, set_prop, upd. simpl.
          destruct (Nat.eqb_spec i node) as [->|]; simpl; auto. }
        assert (HH2 : node_alloc_head st2 = node_alloc_head st1)
          by (subst st2; reflexivity).
        destruct (IHl st2 off1 node st' off' r I2 ltac:(lia) E)
          as (I' & X' & L' & NP' & R').
        unfold loop_post. split; [exact I'|]. split; [|split; [lia|split]].
        + eapply extends_trans; [|exact X'].
          eapply extends_trans; [exact X1|exact X2].
        + intros j q Hj1 Hj2 Pj. rewrite HH2, NH1 in NP'.
          apply (NP' j q); trivial.
        + exact R'.
      - destruct (IHl st1 off1 node st' off' r I1 ltac:(lia) E)
          as (I' & X' & L' & NP' & R').
        unfold loop_post. split; [exact I'|]. split; [|split; [lia|split]].
        + eapply extends_trans; [exact X1|exact X'].
        + intros j q Hj1 Hj2 Pj. rewrite NH1 in NP'.
          apply (NP' j q); trivial.
        + exact R'. }
    assert (I1 : tree_inv m st (off + 1))
      by (apply tree_inv_same_arenas with (st := st) (off := off);
          trivial; lia).
    destruct (IHl st (off + 1) node st' off' r I1 Hn E)
      as (I' & X' & L' & NP' & R').
    unfold loop_post. split; [exact I'|]. split; [exact X'|].
    split; [lia|]. split; assumption.
Qed.

Lemma init_loop_spec (f : nat) :
  forall st i st',
    tree_inv m st i -> init_loop f m st i = Ok st' ->
    (exists off, tree_inv m st' off) /\ same_blob st st'.
Proof.
  induction f as [|f IH]; intros st i st' I E; [discriminate|].
  simpl in E.
  destruct (i <? cell_count st).
  2:{ injection E as <-. split; [eauto|repeat split]. }
  destruct (negb (be32 (cell m st i) =? FDT_BEGIN_NODE)).
  { apply (IH st (i + 1)); trivial.
    apply tree_inv_same_arenas with (st := st) (off := i); trivial. lia. }
  apply bind_Ok in E. destruct E as ([[st1 i1] sub_root] & E1 & E).
  destruct (proj1 (parse_spec f) st i st1 i1 sub_root I E1)
    as (I1 & (SB1 & HH1 & PP1) & L1 & NP1 & R1).
  destruct sub_root as [r|].
  - destruct (R1 r eq_refl) as (-> & Hlt & Pr).
    match type of E with
    | init_loop f m ?s _ = _ => set (st2 := s) in E
    end.
    assert (I2 : tree_inv m st2 (i1 + 1)).
    { apply tree_inv_transfer with (st := st1) (off := i1);
        trivial; try lia.
      - intro j. unfold st2, set_root, set_node, upd. simpl.
        destruct (Nat.eqb_spec j (node_alloc_head st)) as [->|]; simpl; auto.
      - intros j Hj. unfold st2, set_root, set_node, upd. simpl.
        destruct (Nat.eqb_spec j (node_alloc_head st)) as [->|]; simpl; auto.
        congruence.
      - intros q Hq. apply (inv_props _ _ _ I1). exact Hq. }
    destruct (IH st2 (i1 + 1) st' I2 E) as [Ex SB'].
    split; [exact Ex|].
    eapply same_blob_trans; [exact SB1|].
    eapply same_blob_trans; [|exact SB']. repeat split.
  - assert (I2 : tree_inv m st1 (i1 + 1))
      by (apply tree_inv_same_arenas with (st := st1) (off := i1);
          trivial; lia).
    destruct (IH st1 (i1 + 1) st' I2 E) as [Ex SB'].
    split; [exact Ex|]. eapply same_blob_trans; eassumption.
Qed.

Lemma tree_inv_alloc_buffers (st : dtb_state) :
  tree_inv m (alloc_buffers m st) 0
  /\ handle_lookup (alloc_buffers m st) = (fun _ => None).
Proof.
  unfold alloc_buffers.
  destruct (count_tokens (Z.to_nat (cell_count st)) m st 0 0%nat 0%nat)
    as [nodes props_].
  split; [|reflexivity].
  constructor.
  - intros i _. split; reflexivity.
  - intros c p Hc. simpl in Hc. lia.
  - intros n Hn. simpl in Hn. lia.
  - intros i j a b _ Hj. simpl in Hj. lia.
  - intros i a Hi. simpl in Hi. lia.
  - intros i a Hi. simpl in Hi. lia.
  - intros p Hp. simpl in Hp. lia.
Qed.

End TreeInvariant.

(** After a successful [dtb_init] the tree invariant holds and the phandle
    index is as [alloc_buffers] zeroed it. *)
Lemma dtb_init_spec (fuel : nat) (m : memory) (st0 st : dtb_state)
  (start : Z) (o : dtb_ops) :
  dtb_init fuel m st0 start o = Ok (true, st) ->
  (exists off, tree_inv m st off) /\ handle_lookup st = (fun _ => None).
Proof.
  unfold dtb_init, dtb_init_with_config. intro E.
  destruct (negb (malloc (ops (set_ops st0 o)))); [discriminate|].
  destruct (negb (be32 (load32 m start) =? FDT_MAGIC)); [discriminate|].
  apply bind_Ok in E. destruct E as (st1 & E1 & E). injection E as <-.
  match type of E1 with
  | init_loop _ _ (alloc_buffers m ?s) _ = _ =>
      destruct (tree_inv_alloc_buffers m s) as [I0 H0];
      destruct (init_loop_spec m fuel _ 0 st1 I0 E1)
        as [Ex (_ & _ & _ & _ & _ & HL & _)]
  end.
  split; [exact Ex|]. rewrite HL. exact H0.
Qed.

Lemma dtb_init_handle_lookup_empty (fuel : nat) (m : memory)
  (st0 st : dtb_state) (start : Z) (o : dtb_ops) (h : Z) :
  dtb_init fuel m st0 start o = Ok (true, st) ->
  dtb_find_phandle st h = None.
Proof.
  intro E. destruct (dtb_init_spec fuel m st0 st start o E) as [_ HL].
  unfold dtb_find_phandle. rewrite HL.
  destruct (h <? Z.of_nat (node_alloc_max st)); reflexivity.
Qed.

(** ** Decoding values *)







(** ** Cell assembly *)



(** ** Child lists *)




(** On [blob_children] the nodes [a], [b], [c] take slots 1, 2, 3 in blob
    order and the root lists them as 3, 2, 1. *)
Lemma blob_children_lists :
  children_of st_children 0%nat = [1; 2; 3]%nat
  /\ child (node_buff st_children 0%nat) = Some 3%nat
  /\ sibling (node_buff st_children 3%nat) = Some 2%nat
  /\ sibling (node_buff st_children 2%nat) = Some 1%nat
  /\ sibling (node_buff st_children 1%nat) = None
  /\ map (fun i => option_map (fun a => at_addr blob_children a 0)
                     (name (node_buff st_children i))) [1; 2; 3]%nat
     = [Some (char "a"); Some (char "b"); Some (char "c")].
Proof.
  vm_compute. repeat split.
Qed.

(** ** What the other entry points do guarantee *)

(** A property of zero length has no string at any index. *)
Lemma read_prop_string_zero_length (m : memory) (st : dtb_state) (p : nat)
  (index : Z) :
  prop_length (prop_buff st p) = 0 ->
  dtb_read_prop_string m st (Some p) index = None.
Proof.
  intro Z0. unfold dtb_read_prop_string. rewrite Z0. reflexivity.
Qed.

(** The cases in which [dtb_finalise_to_buffer] is a sizing query: a null
    buffer, a buffer larger than the total, a misaligned buffer.  Memory is
    left as it was. *)
Lemma finalise_sizing_query (failure : Z) (fuel : nat) (m : memory)
  (st : dtb_state) (buffer buffer_size boot_cpu_id : Z)
  (data : finalise_data) (struct_bytes total : Z) :
  finalise_sizes fuel m st = Ok (data, struct_bytes, total) ->
  buffer = 0 \/ total < buffer_size \/ Z.land buffer 3 <> 0 ->
  dtb_finalise_to_buffer failure fuel m st buffer buffer_size boot_cpu_id
  = Ok (total, m).
Proof.
  intros S C. unfold dtb_finalise_to_buffer. rewrite S. cbn [bind].
  destruct (Z.eqb_spec buffer 0) as [|Nz]; [reflexivity|].
  destruct (Z.ltb_spec total buffer_size) as [|Ge]; [reflexivity|].
  cbn [orb]. destruct (Z.eqb_spec (Z.land buffer 3) 0) as [Al|]; [|reflexivity].
  exfalso. destruct C as [C|[C|C]]; [congruence|lia|congruence].
Qed.

(** When [alloc_node] has no slot left for a child, [parse_node_loop] does
    not advance: the failed [parse_node] leaves the cursor on the same
    [FDT_BEGIN_NODE] token, and the loop comes back to it for ever. *)
Lemma parse_node_loop_hangs (m : memory) (fuel : nat) :
  forall (st : dtb_state) (off : Z) (node : nat),
    off < cell_count st ->
    be32 (cell m st off) = FDT_BEGIN_NODE ->
    (node_alloc_max st <= node_alloc_head st + 1)%nat ->
    parse_node_loop fuel m st off node = OutOfFuel.
Proof.
  induction fuel as [|f IH]; intros st off node L T Full; [reflexivity|].
  cbn [parse_node_loop]. apply Z.ltb_lt in L. rewrite L, T.
  change (FDT_BEGIN_NODE =? FDT_END_NODE) with false.
  change (FDT_BEGIN_NODE =? FDT_BEGIN_NODE) with true. cbv iota.
  destruct f as [|f']; [reflexivity|].
  cbn [parse_node]. rewrite T.
  change (negb (FDT_BEGIN_NODE =? FDT_BEGIN_NODE)) with false. cbv iota.
  unfold alloc_node.
  destruct (Nat.ltb_spec (node_alloc_head st + 1) (node_alloc_max st));
    [lia|].
  cbn [bind].
  destruct (LOG_ERROR_fields "Node allocator ran out of space" st)
    as (_ & A2 & _ & _ & _ & A6).
  destruct (LOG_ERROR_fields "Node allocation failed"
              (LOG_ERROR "Node allocator ran out of space" st))
    as (_ & B2 & _ & _ & _ & B6).
  destruct A6 as (C1 & _ & C3 & C4 & _), B6 as (D1 & _ & D3 & D4 & _).
  apply IH.
  - rewrite D3, C3. now apply Z.ltb_lt.
  - unfold cell in *. rewrite D1, C1. exact T.
  - rewrite D4, C4, B2, A2. exact Full.
Qed.
